(** * Scoverage pull-request comment action: model of [src/index.ts]

    A shallow embedding of the report parser, the coverage aggregator,
    the Markdown renderer and the comment upsert protocol, with the
    JavaScript built-ins they call (strings, regular expressions,
    IEEE-754 binary64 numbers and their conversions). *)

From Stdlib Require Import String Ascii List ZArith Bool Arith Lia.
From Stdlib Require Import Floats.SpecFloat DecimalString.
Import ListNotations.
Local Open Scope list_scope.
Local Open Scope string_scope.

(** ** JavaScript strings

    A string is a sequence of code units.  The model keeps the code
    units below 256 ([ascii]); [String.length] is JS [.length]. *)

Module JSString.

(** The double quote, code unit 34. *)
Definition dquote : ascii := ascii_of_nat 34.
Definition q : string := String dquote EmptyString.
(** Line feed, code unit 10. *)
Definition nl : string := String (ascii_of_nat 10) EmptyString.

(** [s.startsWith(p)] *)
Fixpoint startsWith (s p : string) {struct p} : bool :=
  match p with
  | EmptyString => true
  | String c p' =>
      match s with
      | EmptyString => false
      | String d s' => Ascii.eqb c d && startsWith s' p'
      end
  end.

(** [s.includes(sub)]: [sub] occurs in [s] at some position. *)
Fixpoint includes (s sub : string) : bool :=
  startsWith s sub ||
  match s with
  | EmptyString => false
  | String _ s' => includes s' sub
  end.

(** [s.endsWith(suf)]: some tail of [s] is [suf]. *)
Fixpoint endsWith (s suf : string) : bool :=
  String.eqb s suf ||
  match s with
  | EmptyString => false
  | String _ s' => endsWith s' suf
  end.

(** [s.split(sep)] for a one-character separator: never empty. *)
Fixpoint split (sep : ascii) (s : string) : list string :=
  match s with
  | EmptyString => [EmptyString]
  | String c s' =>
      if Ascii.eqb c sep then EmptyString :: split sep s'
      else match split sep s' with
           | seg :: segs => String c seg :: segs
           | [] => [String c EmptyString]
           end
  end.

(** [segs.join(sep)] *)
Fixpoint join (sep : string) (segs : list string) : string :=
  match segs with
  | [] => EmptyString
  | [seg] => seg
  | seg :: segs' => seg ++ sep ++ join sep segs'
  end.

(** No code unit of [s] is [c]. *)
Fixpoint free_of (c : ascii) (s : string) : bool :=
  match s with
  | EmptyString => true
  | String d s' => negb (Ascii.eqb d c) && free_of c s'
  end.

(** Truthiness of a string value: only the empty string is falsy. *)
Definition truthy (s : string) : bool := negb (String.eqb s EmptyString).

(** Code-unit classes. *)
Definition isDigit (c : ascii) : bool :=
  let n := nat_of_ascii c in (48 <=? n)%nat && (n <=? 57)%nat.

(** [WhiteSpace] and [LineTerminator] code units below 256:
    TAB, LF, VT, FF, CR, SP, NBSP. *)
Definition isWhiteSpace (c : ascii) : bool :=
  let n := nat_of_ascii c in
  ((9 <=? n)%nat && (n <=? 13)%nat) || (n =? 32)%nat || (n =? 160)%nat.

(** [LineTerminator] code units below 256: LF, CR. *)
Definition isLineTerminator (c : ascii) : bool :=
  let n := nat_of_ascii c in (n =? 10)%nat || (n =? 13)%nat.

(** Longest prefix whose code units satisfy [p], and the rest. *)
Fixpoint span (p : ascii -> bool) (s : string) : string * string :=
  match s with
  | EmptyString => (EmptyString, EmptyString)
  | String c s' =>
      if p c then let '(a, b) := span p s' in (String c a, b)
      else (EmptyString, s)
  end.

(** Leading white space removed. *)
Definition trimStart (s : string) : string := snd (span isWhiteSpace s).

End JSString.
Import JSString.

(** ** Regular expressions

    Both regular expressions of the source are sequences of three kinds
    of pieces: literal text, a capturing group [(cls+)] over a character
    class, and a single character of a class (the unescaped [.]). *)

Module Regex.

Inductive piece :=
| Lit (text : string)
| Group (cls : ascii -> bool)
| One (cls : ascii -> bool).

Definition pattern := list piece.

(** A successful match: the captures in group order, and the text
    after the match. *)
Definition found := (list string * string)%type.

Fixpoint strip (text s : string) {struct text} : option string :=
  match text with
  | EmptyString => Some s
  | String c text' =>
      match s with
      | EmptyString => None
      | String d s' => if Ascii.eqb c d then strip text' s' else None
      end
  end.

(** The greedy quantifier with backtracking: [taken] has been consumed
    by the group; consume one more character and first try to go on,
    and when the continuation fails from there, stop after it. *)
Fixpoint group_here (cls : ascii -> bool) (k : string -> option found)
         (taken s : string) : option found :=
  match s with
  | EmptyString => None
  | String c s' =>
      if cls c then
        let taken' := taken ++ String c EmptyString in
        match group_here cls k taken' s' with
        | Some r => Some r
        | None =>
            match k s' with
            | Some (caps, rest) => Some (taken' :: caps, rest)
            | None => None
            end
        end
      else None
  end.

(** Match [p] at the start of [s]. *)
Fixpoint match_here (p : pattern) : string -> option found :=
  match p with
  | [] => fun s => Some ([], s)
  | Lit text :: p' =>
      fun s => match strip text s with
               | Some s' => match_here p' s'
               | None => None
               end
  | Group cls :: p' => group_here cls (match_here p') EmptyString
  | One cls :: p' =>
      fun s => match s with
               | String c s' => if cls c then match_here p' s' else None
               | EmptyString => None
               end
  end.

(** [s.match(re)] without the [g] flag: the leftmost match. *)
Fixpoint exec (p : pattern) (s : string) : option found :=
  match match_here p s with
  | Some r => Some r
  | None =>
      match s with
      | EmptyString => None
      | String _ s' => exec p s'
      end
  end.

(** [Array.from(s.matchAll(re))] with the [g] flag: the captures of
    every match, left to right; the search resumes where the previous
    match ended ([skip] counts the code units of the last match that
    are still to be passed), one position further after an empty
    match. *)
Fixpoint matchAll_from (p : pattern) (skip : nat) (s : string)
  : list (list string) :=
  match skip with
  | S skip' =>
      match s with
      | EmptyString => []
      | String _ s' => matchAll_from p skip' s'
      end
  | O =>
      match match_here p s with
      | Some (caps, rest) =>
          caps ::
          match s with
          | EmptyString => []
          | String _ s' =>
              matchAll_from p (Nat.pred (String.length s - String.length rest)) s'
          end
      | None =>
          match s with
          | EmptyString => []
          | String _ s' => matchAll_from p O s'
          end
      end
  end.

Definition matchAll (p : pattern) (s : string) : list (list string) :=
  matchAll_from p O s.

(** What it means for the pattern to match: [Matches p s caps rest]
    when [s] is a text matched by [p] with captures [caps], followed
    by [rest]. *)
Inductive Matches : pattern -> string -> list string -> string -> Prop :=
| M_nil s : Matches [] s [] s
| M_lit text p s caps rest :
    Matches p s caps rest ->
    Matches (Lit text :: p) (text ++ s) caps rest
| M_group cls p g s caps rest :
    g <> EmptyString ->
    (forall c, In c (list_ascii_of_string g) -> cls c = true) ->
    Matches p s caps rest ->
    Matches (Group cls :: p) (g ++ s) (g :: caps) rest
| M_one cls p c s caps rest :
    cls c = true ->
    Matches p s caps rest ->
    Matches (One cls :: p) (String c s) caps rest.

(** The pattern occurs somewhere in the text. *)
Definition Located (p : pattern) (s : string) : Prop :=
  exists before caps rest t, s = before ++ t /\ Matches p t caps rest.

End Regex.
Import Regex.

(** ** JavaScript numbers

    A Number is an IEEE-754 binary64 value: [spec_float] at precision 53
    and maximal exponent 1024, with one NaN. *)

Module JSNumber.

Definition number := spec_float.
Definition prec : Z := 53.
Definition emax : Z := 1024.

Definition NaN : number := S754_nan.
Definition zero : number := S754_zero false.

Definition add : number -> number -> number := SFadd prec emax.
Definition mul : number -> number -> number := SFmul prec emax.
Definition div : number -> number -> number := SFdiv prec emax.

(** [x >= y]: false as soon as one side is NaN. *)
Definition ge (x y : number) : bool := SFleb y x.
(** [x < y] *)
Definition lt (x y : number) : bool := SFltb x y.

Definition isNaN (x : number) : bool :=
  match x with S754_nan => true | _ => false end.

(** [Number.isFinite(x)] *)
Definition isFinite (x : number) : bool :=
  match x with
  | S754_zero _ | S754_finite _ _ _ => true
  | S754_infinity _ | S754_nan => false
  end.

(** [x] is [+0] or [-0]. *)
Definition isZero (x : number) : bool :=
  match x with S754_zero _ => true | _ => false end.

Definition eqb (x y : number) : bool :=
  match x, y with
  | S754_zero a, S754_zero b => Bool.eqb a b
  | S754_infinity a, S754_infinity b => Bool.eqb a b
  | S754_nan, S754_nan => true
  | S754_finite a m e, S754_finite b n f =>
      Bool.eqb a b && Pos.eqb m n && Z.eqb e f
  | _, _ => false
  end.

(** The Number value of an integer (round to nearest, ties to even). *)
Definition of_Z (z : Z) : number := binary_normalize prec emax z 0 false.

(** The Number value of the decimal [(-1)^neg * m * 10^e10], [0 <= m]
    (round to nearest, ties to even). *)
Definition of_decimal (neg : bool) (m e10 : Z) : number :=
  match m with
  | Z0 => S754_zero neg
  | Zpos p =>
      if (0 <=? e10)%Z then binary_round prec emax neg (p * Z.to_pos (10 ^ e10)) 0
      else
        let '(qt, e, l) := SFdiv_core_binary prec emax m 0 (10 ^ (- e10)) 0 in
        binary_round_aux prec emax neg qt e l
  | Zneg _ => NaN
  end.

(** The literals of the source. *)
Definition n100 : number := of_Z 100.
Definition n0_8 : number := of_decimal false 8 (-1).
Definition n0_6 : number := of_decimal false 6 (-1).

(** *** Text to number *)

Definition digit_value (c : ascii) : Z := Z.of_nat (nat_of_ascii c) - 48.

Fixpoint digits_value_from (acc : Z) (s : string) : Z :=
  match s with
  | EmptyString => acc
  | String c s' => digits_value_from (10 * acc + digit_value c) s'
  end.

(** The integer written by a string of decimal digits. *)
Definition digits_value (s : string) : Z := digits_value_from 0 s.

(** An optional sign: whether it is [-], and the rest. *)
Definition take_sign (s : string) : bool * string :=
  match s with
  | String c s' =>
      if Ascii.eqb c "-" then (true, s')
      else if Ascii.eqb c "+" then (false, s')
      else (false, s)
  | EmptyString => (false, s)
  end.

(** [Number.parseInt(s, 10)]: leading white space, an optional sign,
    then the longest run of decimal digits; NaN when that run is
    empty. *)
Definition parseInt (s : string) : number :=
  let '(neg, s1) := take_sign (trimStart s) in
  let '(ds, _) := span isDigit s1 in
  if String.eqb ds EmptyString then NaN
  else of_decimal neg (digits_value ds) 0.

(** The value of an [ExponentPart] at the start of [s], 0 when there
    is none. *)
Definition exponent_part (s : string) : Z :=
  match s with
  | String c s' =>
      if Ascii.eqb c "e" || Ascii.eqb c "E" then
        let '(neg, s2) := take_sign s' in
        let '(ds, _) := span isDigit s2 in
        if String.eqb ds EmptyString then 0%Z
        else if neg then (- digits_value ds)%Z else digits_value ds
      else 0%Z
  | EmptyString => 0%Z
  end.

(** [Number.parseFloat(s)]: leading white space, then the longest
    prefix that is a [StrDecimalLiteral]; NaN when there is none. *)
Definition parseFloat (s : string) : number :=
  let '(neg, s1) := take_sign (trimStart s) in
  if startsWith s1 "Infinity" then S754_infinity neg
  else
    let '(ip, s2) := span isDigit s1 in
    let '(fp, s3) :=
      match s2 with
      | String c s2' => if Ascii.eqb c "." then span isDigit s2' else (EmptyString, s2)
      | EmptyString => (EmptyString, s2)
      end in
    if String.eqb ip EmptyString && String.eqb fp EmptyString then NaN
    else of_decimal neg (digits_value (ip ++ fp))
                    (exponent_part s3 - Z.of_nat (String.length fp)).

(** *** Number to text *)

(** The decimal digits of a natural number. *)
Definition digits_of (z : Z) : string := NilZero.string_of_uint (N.to_uint (Z.to_N z)).

Fixpoint zeros (n : nat) : string :=
  match n with O => EmptyString | S n' => String "0" (zeros n') end.

(** The exact value of a positive finite number as a fraction. *)
Definition fraction_of (m : positive) (e : Z) : Z * Z :=
  if (0 <=? e)%Z then (Zpos m * 2 ^ e, 1)%Z else (Zpos m, 2 ^ (- e))%Z.

(** [floor (num / den * 10^p)] *)
Definition scaled_floor (num den p : Z) : Z :=
  if (0 <=? p)%Z then (num * 10 ^ p / den)%Z else (num / (den * 10 ^ (- p)))%Z.

(** [n] with [10^(n-1) <= num/den < 10^n], searched upwards from a
    start [n] that is not above it. *)
Fixpoint magnitude_from (fuel : nat) (num den n : Z) : Z :=
  match fuel with
  | O => n
  | S fuel' =>
      if (0 <? scaled_floor num den (- n))%Z
      then magnitude_from fuel' num den (n + 1)
      else n
  end.

(** The search starts from the binary sizes: [num/den > 2^(l-1)] for
    [l := log2 num - log2 den], and [log10 2] is 0.30103 less a few
    billionths, so the start is at most three steps short. *)
Definition magnitude (num den : Z) : Z :=
  let l := (Z.log2 num - Z.log2 den)%Z in
  magnitude_from 8 num den ((l - 1) * 30103 / 100000 - 1).

(** The digit string of [k] digits nearest to [x = num/den] whose value
    converts back to [x], with its decimal exponent [n]. *)
Definition digits_at (x : number) (num den n0 : Z) (k : Z)
  : option (Z * Z) :=
  let lo := scaled_floor num den (k - n0) in
  let hi := (lo + 1)%Z in
  let ok s := eqb (of_decimal false s (n0 - k)) x in
  let lo_ok := (10 ^ (k - 1) <=? lo)%Z && ok lo in
  let hi_ok := ok hi in
  let hi_r := if (hi =? 10 ^ k)%Z then (10 ^ (k - 1), n0 + 1)%Z else (hi, n0) in
  (* is [hi] strictly nearer to [x] than [lo]?  [2 x 10^(k-n0) > lo + hi] *)
  let hi_nearer :=
    if (0 <=? k - n0)%Z
    then ((lo + hi) * den <? 2 * num * 10 ^ (k - n0))%Z
    else ((lo + hi) * den * 10 ^ (n0 - k) <? 2 * num)%Z in
  let tie :=
    if (0 <=? k - n0)%Z
    then ((lo + hi) * den =? 2 * num * 10 ^ (k - n0))%Z
    else ((lo + hi) * den * 10 ^ (n0 - k) =? 2 * num)%Z in
  match lo_ok, hi_ok with
  | true, true =>
      if hi_nearer || (tie && Z.even hi) then Some hi_r else Some (lo, n0)
  | true, false => Some (lo, n0)
  | false, true => Some hi_r
  | false, false => None
  end.

Fixpoint shortest_from (fuel : nat) (x : number) (num den n0 k : Z)
  : Z * Z :=
  match fuel with
  | O => (scaled_floor num den (k - n0), n0)
  | S fuel' =>
      match digits_at x num den n0 k with
      | Some r => r
      | None => shortest_from fuel' x num den n0 (k + 1)
      end
  end.

(** [Number::toString] of a positive finite number: the shortest
    digit string [s] and the exponent [n] with [s * 10^(n-k)]
    converting to the number, laid out by the size of [n]. *)
Definition toString_pos (m : positive) (e : Z) : string :=
  let x := S754_finite false m e in
  let '(num, den) := fraction_of m e in
  let n0 := magnitude num den in
  let '(s, n) := shortest_from 17 x num den n0 1 in
  let ds := digits_of s in
  (* trailing zeros of [s] belong to the exponent *)
  let k := Z.of_nat (String.length ds) in
  if (k <=? n)%Z && (n <=? 21)%Z then ds ++ zeros (Z.to_nat (n - k))
  else if (0 <? n)%Z && (n <=? 21)%Z then
    substring 0 (Z.to_nat n) ds ++ "." ++ substring (Z.to_nat n) (Z.to_nat (k - n)) ds
  else if (-6 <? n)%Z && (n <=? 0)%Z then
    "0." ++ zeros (Z.to_nat (- n)) ++ ds
  else
    let ex := (n - 1)%Z in
    let es := (if (ex <? 0)%Z then "-" else "+") ++ digits_of (Z.abs ex) in
    if (k =? 1)%Z then ds ++ "e" ++ es
    else substring 0 1 ds ++ "." ++ substring 1 (Z.to_nat (k - 1)) ds ++ "e" ++ es.

(** [String(x)], as in a template literal. *)
Definition toString (x : number) : string :=
  match x with
  | S754_nan => "NaN"
  | S754_zero _ => "0"
  | S754_infinity s => if s then "-Infinity" else "Infinity"
  | S754_finite s m e => (if s then "-" else EmptyString) ++ toString_pos m e
  end.

(** [x.toFixed(1)]: the nearest multiple of one tenth, the larger one
    on a tie; numbers of magnitude at least [10^21] and non-finite ones
    print as [String(x)]. *)
Definition toFixed1 (x : number) : string :=
  match x with
  | S754_finite s m e =>
      let '(num, den) := fraction_of m e in
      if (10 ^ 21 * den <=? num)%Z then toString x
      else
        let n := ((20 * num + den) / (2 * den))%Z in
        let ds := digits_of n in
        let ds := if (String.length ds <=? 1)%nat then "0" ++ ds else ds in
        let k := String.length ds in
        (if s then "-" else EmptyString) ++ substring 0 (k - 1) ds ++ "." ++ substring (k - 1) 1 ds
  | S754_zero _ => "0.0"
  | _ => toString x
  end.

(** [Math.round(x)]: the nearest integer, the larger one on a tie;
    a zero result keeps the sign of [x]. *)
Definition round (x : number) : number :=
  match x with
  | S754_finite s m e =>
      if (0 <=? e)%Z then x
      else
        let den := (2 ^ (- e))%Z in
        let num := if s then Zneg m else Zpos m in
        let v := ((2 * num + den) / (2 * den))%Z in
        if (v =? 0)%Z then S754_zero s else of_Z v
  | _ => x
  end.

End JSNumber.
Import JSNumber.

Definition notQuote (c : ascii) : bool := negb (Ascii.eqb c dquote).
Definition notLineTerminator (c : ascii) : bool := negb (isLineTerminator c).

Definition summaryRegex : pattern :=
  [ Lit ("statement-count=" ++ q); Group isDigit;
    Lit (q ++ " statements-invoked=" ++ q); Group notQuote;
    Lit (q ++ " statement-rate=" ++ q); Group notQuote;
    Lit (q ++ " branch-rate=" ++ q); Group notQuote;
    Lit (q ++ " version=" ++ q ++ "1"); One notLineTerminator;
    Lit ("0" ++ q) ].

Definition classRegex : pattern :=
  [ Lit ("name=" ++ q); Group notQuote;
    Lit (q ++ " filename=" ++ q); Group notQuote;
    Lit (q ++ " statement-count=" ++ q); Group notQuote;
    Lit (q ++ " statements-invoked=" ++ q); Group notQuote;
    Lit q ].

(** ** The data model of the source *)

Module ReportSummary.
Record t := mk { statementRate : number; statementsTotal : number }.
End ReportSummary.

Module ReportClass.
Record t := mk {
  name : string;
  filename : string;
  statementsTotal : number;
  statementsInvoked : number
}.
End ReportClass.

Record ReportBucket := {
  summary : ReportSummary.t;
  classes : list ReportClass.t
}.

Record Report := { all : ReportBucket; changed : ReportBucket }.

(** A call either returns a value or throws an [Error] with a message. *)
Inductive outcome (A : Type) :=
| Return (a : A)
| Throw (message : string).
Arguments Return {A} a.
Arguments Throw {A} message.

(** ** [parseReport], on the text read from the report file *)

(** The [map] callback over the class matches. *)
Definition classOfMatch (classMatch : list string) : ReportClass.t :=
  let name := nth 0 classMatch EmptyString in
  let filename := nth 1 classMatch EmptyString in
  let statementCountStr := nth 2 classMatch EmptyString in
  let statementsInvokedStr := nth 3 classMatch EmptyString in
  let statementsTotal := parseInt statementCountStr in
  let statementsInvoked := parseInt statementsInvokedStr in
  ReportClass.mk name filename statementsTotal statementsInvoked.

(** The [filter] callback: [changedFiles.find(...)] used as a condition,
    so a found path counts when it is truthy. *)
Definition isChanged (changedFiles : list string) (classMatch : ReportClass.t) : bool :=
  match find (fun file => includes file (ReportClass.filename classMatch)) changedFiles with
  | Some file => truthy file
  | None => false
  end.

(** [classes.reduce((acc, classResult) => acc + classResult.field, 0)] *)
Definition sumOf (field : ReportClass.t -> number) (cs : list ReportClass.t) : number :=
  fold_left (fun acc classResult => add acc (field classResult)) cs zero.

Definition parseReport (xml : string) (changedFiles : list string) : outcome Report :=
  match exec summaryRegex xml with
  | None => Throw "unable to parse scoverage summary"
  | Some (summaryMatch, _) =>
      let statementCountStr := nth 0 summaryMatch EmptyString in
      let statementRateStr := nth 2 summaryMatch EmptyString in
      let classMatches := matchAll classRegex xml in
      let allClasses := map classOfMatch classMatches in
      let allSummary :=
        ReportSummary.mk (parseFloat statementRateStr) (parseInt statementCountStr) in
      let all := {| summary := allSummary; classes := allClasses |} in
      let changedClasses := filter (isChanged changedFiles) allClasses in
      let changedSummary :=
        ReportSummary.mk
          (mul (div (sumOf ReportClass.statementsInvoked changedClasses)
                    (sumOf ReportClass.statementsTotal changedClasses))
               n100)
          (sumOf ReportClass.statementsTotal changedClasses) in
      let changed := {| summary := changedSummary; classes := changedClasses |} in
      Return {| all := all; changed := changed |}
  end.

(** ** [coverageRateIcon] *)

Definition coverageRateIcon (rate : number) (thresholds : number * number) : string :=
  if ge rate (fst thresholds) then ":green_circle:"
  else if ge rate (snd thresholds) then ":yellow_circle:"
  else ":red_circle:".

(** ** [renderCommentMarkdown] *)

(** The [reduce] callback of the class-name abbreviation. *)
Definition abbreviateStep (acc next : string) : string :=
  if endsWith acc "..." then acc
  else if (80 - 3 <? String.length (acc ++ "." ++ next))%nat then acc ++ "..."
  else acc ++ "." ++ next.

(** [classNameAbbreviated] as a function of [classResult.name]. *)
Definition abbreviate (name : string) : string :=
  let classNameSegments := rev (split "." name) in
  fold_left abbreviateStep (tl classNameSegments) (hd EmptyString classNameSegments).

(** One table row, appended to [result]. *)
Definition renderClass (result : string) (classResult : ReportClass.t) : string :=
  let classNameAbbreviated := abbreviate (ReportClass.name classResult) in
  let statementCoverageRate :=
    div (ReportClass.statementsInvoked classResult) (ReportClass.statementsTotal classResult) in
  let statementCoverageText :=
    toFixed1 (mul statementCoverageRate n100) ++ "% ("
    ++ toString (ReportClass.statementsInvoked classResult) ++ "/"
    ++ toString (ReportClass.statementsTotal classResult) ++ ")" in
  let statementCoverageIcon := coverageRateIcon statementCoverageRate (n0_8, n0_6) in
  result ++ "| `" ++ classNameAbbreviated ++ "` | " ++ statementCoverageIcon ++ " "
         ++ statementCoverageText ++ " |" ++ nl.

(** The closure [renderBucket], with the variable [result] it updates
    passed in and returned. *)
Definition renderBucket (title : string) (bucket : ReportBucket) (result : string) : string :=
  let rate := ReportSummary.statementRate (summary bucket) in
  let total := ReportSummary.statementsTotal (summary bucket) in
  let summaryStatementCoverageRate := div rate n100 in
  let summaryStatementCoverage :=
    toFixed1 (mul summaryStatementCoverageRate n100) ++ "% ("
    ++ toString (round (mul (div rate n100) total)) ++ "/" ++ toString total ++ ")" in
  let summaryStatementCoverageIcon := coverageRateIcon summaryStatementCoverageRate (n0_8, n0_6) in
  let result := result ++ "<details>" ++ nl in
  let result := result ++ "<summary>" ++ title ++ " " ++ summaryStatementCoverageIcon ++ " "
                       ++ summaryStatementCoverage ++ "</summary>" ++ nl in
  let result := result ++ nl in
  let result := result ++ "| Class | Statement coverage |" ++ nl in
  let result := result ++ "|---|---|" ++ nl in
  let result := fold_left renderClass (classes bucket) result in
  let result := result ++ nl in
  result ++ "</details>" ++ nl.

Definition renderCommentMarkdown (report : Report) : string :=
  let result := EmptyString in
  let result :=
    if isFinite (ReportSummary.statementRate (summary (all report)))
    then renderBucket "All files" (all report) result else result in
  let result :=
    if isFinite (ReportSummary.statementRate (summary (changed report)))
    then renderBucket "Changed files" (changed report) result else result in
  result.

(** ** [createOrUpdateIssueComment]

    The comment store answers [listComments] page by page; the function
    is modelled by the sequence of requests it sends, given the pages
    the store would answer with. *)

Record Comment := { id : Z; body : option string }.

Inductive Call :=
| ListComments (issue_number : Z) (page : nat)
| UpdateComment (comment_id : Z) (text : string)
| CreateComment (issue_number : Z) (text : string).

Definition commentTag : string :=
  "<!-- airfocusio/github-action-scoverage-pull-request-comment " ++ q ++ q ++ " -->".

(** [comment?.body?.includes(commentTag)] as a condition. *)
Definition isTagged (comment : Comment) : bool :=
  match body comment with
  | Some text => includes text commentTag
  | None => false
  end.

(** The [for await] loop over the pages: one request per page, left
    as soon as a page holds a tagged comment. *)
Fixpoint findExisting (issueNumber : Z) (page : nat) (pages : list (list Comment))
  : list Call * option Comment :=
  match pages with
  | [] => ([], None)
  | comments :: pages' =>
      match find isTagged comments with
      | Some foundComment => ([ListComments issueNumber page], Some foundComment)
      | None =>
          let '(calls, existingComment) := findExisting issueNumber (S page) pages' in
          (ListComments issueNumber page :: calls, existingComment)
      end
  end.

Definition createOrUpdateIssueComment
    (pages : list (list Comment)) (issueNumber : Z) (text : string) : list Call :=
  let '(calls, existingComment) := findExisting issueNumber 1 pages in
  match existingComment with
  | Some comment => (calls ++ [UpdateComment (id comment) (text ++ nl ++ nl ++ commentTag)])%list
  | None => (calls ++ [CreateComment issueNumber (text ++ nl ++ nl ++ commentTag)])%list
  end.


(** ** Definitions used to state the properties *)

(** Pages requested by the scan: up to and including the first page
    that holds a tagged comment. *)
Fixpoint pagesRead (pages : list (list Comment)) : nat :=
  match pages with
  | [] => 0
  | comments :: pages' =>
      match find isTagged comments with
      | Some _ => 1
      | None => S (pagesRead pages')
      end
  end.

(** The greedy appending of the specification: append the remaining
    segments one by one, each after a dot, while the total stays
    within 77 characters; at the first segment that would go beyond,
    end the name with three dots and stop. *)
Fixpoint abbreviateSpecFrom (acc : string) (remaining : list string) : string :=
  match remaining with
  | [] => acc
  | next :: remaining' =>
      if (String.length (acc ++ "." ++ next) <=? 77)%nat
      then abbreviateSpecFrom (acc ++ "." ++ next) remaining'
      else acc ++ "..."
  end.

(** The abbreviation as the specification words it: split on the
    dot, reverse, keep the innermost segment, then append the
    remaining segments from the outer one to the inner one. *)
Definition abbreviateSpec (name : string) : string :=
  let segments := rev (split "." name) in
  abbreviateSpecFrom (hd EmptyString segments) (rev (tl segments)).

(** The same procedure with the remaining segments taken in the order
    of the reversed list, from the inner one to the outer one. *)
Definition abbreviateInnerToOuter (name : string) : string :=
  let segments := rev (split "." name) in
  abbreviateSpecFrom (hd EmptyString segments) (tl segments).

(** The [reduce] callback with a flag that records that the branch
    [return acc + '...'] was taken. *)
Definition abbreviateStepCut (st : string * bool) (next : string) : string * bool :=
  let '(acc, cut) := st in
  if endsWith acc "..." then (acc, cut)
  else if (80 - 3 <? String.length (acc ++ "." ++ next))%nat then (acc ++ "...", true)
  else (acc ++ "." ++ next, cut).

(** Whether the abbreviation of [name] truncates. *)
Definition truncated (name : string) : bool :=
  let classNameSegments := rev (split "." name) in
  snd (fold_left abbreviateStepCut (tl classNameSegments)
                 (hd EmptyString classNameSegments, false)).

(** Every dot-separated segment of [name] is non-empty. *)
Definition segmentsNonEmpty (name : string) : bool :=
  forallb (fun seg => negb (String.eqb seg EmptyString)) (split "." name).

(** A segment as the split leaves it when no segment is empty. *)
Definition plainSegment (seg : string) : Prop :=
  seg <> EmptyString /\ free_of "." seg = true.

(** Appending every remaining segment after a dot. *)
Definition joinOnto (acc : string) (remaining : list string) : string :=
  fold_left (fun acc next => acc ++ "." ++ next) remaining acc.

(** No code unit of the text is a decimal digit. *)
Fixpoint noDigit (s : string) : bool :=
  match s with
  | EmptyString => true
  | String c s' => negb (isDigit c) && noDigit s'
  end.

Definition attr (key value : string) : string := key ++ "=" ++ q ++ value ++ q.

(** The document-level element with its five attributes. *)
Definition summaryTag (count invoked rate branch : string) : string :=
  "<scoverage " ++ attr "statement-count" count ++ " "
  ++ attr "statements-invoked" invoked ++ " " ++ attr "statement-rate" rate ++ " "
  ++ attr "branch-rate" branch ++ " " ++ attr "version" "1.0" ++ ">".

(** A per-unit element with its four attributes. *)
Definition classTag (name filename count invoked : string) : string :=
  "<class " ++ attr "name" name ++ " " ++ attr "filename" filename ++ " "
  ++ attr "statement-count" count ++ " " ++ attr "statements-invoked" invoked ++ ">".

(** The scenario of the specification: 80 of 100 statements, one unit
    [a.B] with 5 of 10. *)
Definition scenarioDoc : string :=
  summaryTag "100" "80" "80.0" "50.00" ++ classTag "a.B" "a/B.scala" "10" "5".

Definition summaryOnlyDoc : string := summaryTag "100" "80" "80.0" "50.00".

(** A unit without statements. *)
Definition zeroTotalDoc : string :=
  summaryTag "100" "80" "80.0" "50.00" ++ classTag "a.Empty" "a/Empty.scala" "0" "0".

(** A summary whose rate is not a number, and a unit whose counts are
    not numbers. *)
Definition malformedDoc : string :=
  summaryTag "100" "80" "n/a" "50.00" ++ classTag "a.B" "a/B.scala" "??" "--".

Definition longName : string :=
  "AbstractSingletonProxyFactoryBeanImplementationVisitorAdapterDelegateGeneratedForTestingPurposes".

Definition onlyAllFinite : Report :=
  {| all := {| summary := ReportSummary.mk (parseFloat "80.0") (parseInt "100");
               classes := [] |};
     changed := {| summary := ReportSummary.mk NaN zero; classes := [] |} |}.

Definition taggedOnSecondPage : list (list Comment) :=
  [ [ {| id := 11; body := None |}; {| id := 12; body := Some "LGTM" |} ];
    [ {| id := 13; body := Some ("old report" ++ nl ++ nl ++ commentTag) |};
      {| id := 14; body := Some ("stale" ++ commentTag) |} ];
    [ {| id := 15; body := Some "later" |} ] ].

(** ** [run]: the inputs it resolves *)

(** [a || b || c] on strings, where [b] is an environment variable and
    may be unset. *)
Definition firstTruthy (a : string) (b : option string) (c : string) : string :=
  if truthy a then a
  else match b with
       | Some b' => if truthy b' then b' else c
       | None => c
       end.

(** Truthiness of a Number: neither NaN nor a zero. *)
Definition truthyNumber (n : number) : bool := negb (isNaN n || isZero n).

(** [pullRequestNumber], from the input [pull-request-number], the
    variable [GITHUB_PULL_REQUEST_NUMBER] and the number of the pull
    request in the event payload, each possibly missing. *)
Definition pullRequestNumber
    (input : string) (env : option string) (payloadNumber : option number)
  : option number :=
  let n := parseInt (firstTruthy input env EmptyString) in
  if truthyNumber n then Some n else payloadNumber.

(** The fallback value of [repository], from the variable
    [GITHUB_REPOSITORY]: [split("/", 2)] keeps the first two segments,
    a missing one reads as the empty string. *)
Definition repositoryFromEnv (env : option string) : string * string :=
  match env with
  | Some text =>
      let segments := firstn 2 (split "/" text) in
      (nth 0 segments EmptyString, nth 1 segments EmptyString)
  | None => (EmptyString, EmptyString)
  end.

(** ** Further definitions used to state the properties *)

(** The lines of a section before its table rows. *)
Definition bucketHeader (title : string) (bucket : ReportBucket) : string :=
  let rate := ReportSummary.statementRate (summary bucket) in
  let total := ReportSummary.statementsTotal (summary bucket) in
  "<details>" ++ nl
  ++ "<summary>" ++ title ++ " " ++ coverageRateIcon (div rate n100) (n0_8, n0_6) ++ " "
  ++ toFixed1 (mul (div rate n100) n100) ++ "% ("
  ++ toString (round (mul (div rate n100) total)) ++ "/" ++ toString total ++ ")"
  ++ "</summary>" ++ nl
  ++ nl
  ++ "| Class | Statement coverage |" ++ nl
  ++ "|---|---|" ++ nl.

(** The table rows of a list of records, one after the other. *)
Definition renderRows (cs : list ReportClass.t) : string :=
  fold_right (fun classResult rows => renderClass EmptyString classResult ++ rows)
             EmptyString cs.

(** The innermost segment of a qualified name. *)
Definition innermost (name : string) : string :=
  hd EmptyString (rev (split "." name)).

(** The rank of an icon. *)
Definition iconRank (icon : string) : nat :=
  if String.eqb icon ":green_circle:" then 2
  else if String.eqb icon ":yellow_circle:" then 1
  else 0.

(** A non-empty attribute value without a double quote. *)
Definition plainValue (v : string) : Prop :=
  v <> EmptyString /\ free_of dquote v = true.

(** The four attribute values of a per-unit element: name, filename,
    statement count, statements invoked. *)
Definition unitValues := (string * string * string * string)%type.

(** Per-unit elements, one after the other. *)
Definition classTags (units : list unitValues) : string :=
  fold_right (fun '(name, filename, count, invoked) rest =>
                classTag name filename count invoked ++ rest)
             EmptyString units.

(** The record a per-unit element stands for. *)
Definition recordOf (unit : unitValues) : ReportClass.t :=
  let '(name, filename, count, invoked) := unit in
  ReportClass.mk name filename (parseInt count) (parseInt invoked).

(** No class match can start inside [s], whatever follows it: [s]
    holds no [n] followed by [a] and does not end with [n]. *)
Fixpoint noNameStart (s : string) : bool :=
  match s with
  | EmptyString => true
  | String c s' =>
      (if Ascii.eqb c "n"
       then match s' with
            | EmptyString => false
            | String d _ => negb (Ascii.eqb d "a")
            end
       else true)
      && noNameStart s'
  end.

(** A listing with one comment written by an earlier run. *)
Definition afterFirstRun : list (list Comment) :=
  [ [ {| id := 20; body := Some "first!" |};
      {| id := 21; body := Some ("old report" ++ nl ++ nl ++ commentTag) |} ] ].

(** A unit without statements. *)
Definition emptyUnit : ReportClass.t :=
  ReportClass.mk "a.Empty" "a/Empty.scala" zero zero.

(** The sum of a list of integers. *)
Definition sumZ (ns : list Z) : Z := fold_right Z.add 0%Z ns.

(** [p] with [n] zero bits appended. *)
Definition shiftP (n : nat) (p : positive) : positive := Nat.iter n xO p.

(** The binary64 value of a positive integer of at most 53 bits: the
    mantissa brought to 53 bits. *)
Definition normal (p : positive) : number :=
  S754_finite false
    (shiftP (Z.to_nat (53 - Zpos (digits2_pos p))) p)
    (Zpos (digits2_pos p) - 53).

(** One changed unit with 23 statements invoked of 80. *)
Definition rateDoc : string :=
  summaryTag "80" "23" "28.75" "0.00" ++ classTag "a.B" "a/B.scala" "80" "23".

(** A unit whose statement count reads as minus zero. *)
Definition negativeZeroUnit : ReportClass.t :=
  ReportClass.mk "a.B" "a/B.scala" (parseInt "-0") (parseInt "5").

(** * Properties *)

(** ** Strings *)

Lemma append_nil_r (s : string) : s ++ EmptyString = s.
Proof. induction s; simpl; congruence. Qed.

Lemma append_assoc (a b c : string) : (a ++ b) ++ c = a ++ b ++ c.
Proof. induction a; simpl; congruence. Qed.

Lemma length_append (a b : string) :
  String.length (a ++ b) = String.length a + String.length b.
Proof. induction a; simpl; congruence. Qed.

Lemma startsWith_spec (s p : string) :
  startsWith s p = true <-> exists t, s = p ++ t.
Proof.
  revert s; induction p as [|c p IH]; intros s; simpl.
  - split; [intros _; exists s; reflexivity | reflexivity].
  - destruct s as [|d s]; simpl.
    + split; [discriminate | intros [t H]; discriminate].
    + rewrite andb_true_iff, Ascii.eqb_eq, IH. split.
      * intros [-> [t ->]]. eauto.
      * intros [t H]. injection H as -> ->. eauto.
Qed.

Lemma includes_spec (s sub : string) :
  includes s sub = true <-> exists before after, s = before ++ sub ++ after.
Proof.
  induction s as [|c s IH]; simpl.
  - rewrite orb_false_r, startsWith_spec. split.
    + intros [t H]. exists EmptyString, t. exact H.
    + intros [[|d b] [a H]]; simpl in H; [eauto | discriminate].
  - rewrite orb_true_iff, startsWith_spec, IH. split.
    + intros [[t H] | [b [a H]]].
      * exists EmptyString, t. exact H.
      * exists (String c b), a. simpl. congruence.
    + intros [[|d b] [a H]]; simpl in H.
      * left. eauto.
      * right. injection H as _ H. eauto.
Qed.

Lemma endsWith_spec (s suf : string) :
  endsWith s suf = true <-> exists before, s = before ++ suf.
Proof.
  induction s as [|c s IH]; cbn [endsWith].
  - rewrite orb_false_r, String.eqb_eq. split.
    + intros <-. exists EmptyString. reflexivity.
    + intros [[|d b] H]; simpl in H; [congruence | discriminate].
  - rewrite orb_true_iff, String.eqb_eq, IH. split.
    + intros [<- | [b ->]]; [exists EmptyString | exists (String c b)]; reflexivity.
    + intros [[|d b] H]; simpl in H.
      * left. congruence.
      * right. injection H as _ H. eauto.
Qed.

Lemma endsWith_append (a suf : string) : endsWith (a ++ suf) suf = true.
Proof. apply endsWith_spec. eauto. Qed.

(** ** The matcher against the declarative reading of a pattern *)

Lemma strip_spec (text s r : string) : strip text s = Some r <-> s = text ++ r.
Proof.
  revert s; induction text as [|c text IH]; intros s; simpl.
  - split; congruence.
  - destruct s as [|d s]; [split; discriminate|].
    destruct (Ascii.eqb_spec c d) as [->|Hne].
    + rewrite IH. split; congruence.
    + split; [discriminate | congruence].
Qed.

Lemma group_here_sound cls k s :
  forall taken caps rest,
    group_here cls k taken s = Some (caps, rest) ->
    exists g t caps',
      g <> EmptyString /\ (forall c, In c (list_ascii_of_string g) -> cls c = true) /\
      s = g ++ t /\ k t = Some (caps', rest) /\ caps = (taken ++ g) :: caps'.
Proof.
  induction s as [|c s IH]; intros taken caps rest; simpl; [discriminate|].
  destruct (cls c) eqn:Hc; [|discriminate].
  destruct (group_here cls k (taken ++ String c EmptyString) s) as [r|] eqn:Hg.
  - intros [= ->]. apply IH in Hg.
    destruct Hg as (g & t & caps' & Hg & Hall & -> & Hk & ->).
    exists (String c g), t, caps'. repeat split; try discriminate; auto.
    + simpl. intros d [<-|Hd]; auto.
    + now rewrite append_assoc.
  - destruct (k s) as [[caps' rest']|] eqn:Hk; [|discriminate].
    intros [= <- <-]. exists (String c EmptyString), s, caps'.
    repeat split; try discriminate; auto.
    simpl. intros d [<-|[]]; auto.
Qed.

Lemma group_here_complete cls k g :
  g <> EmptyString -> (forall c, In c (list_ascii_of_string g) -> cls c = true) ->
  forall taken t, k t <> None -> group_here cls k taken (g ++ t) <> None.
Proof.
  induction g as [|c g IH]; intros Hne Hall taken t Hk; [congruence|].
  simpl. rewrite (Hall c) by (simpl; auto).
  destruct g as [|d g].
  - simpl. destruct (group_here cls k (taken ++ String c EmptyString) t); [discriminate|].
    destruct (k t) as [[]|]; [discriminate | congruence].
  - specialize (IH ltac:(discriminate) (fun x Hx => Hall x (or_intror Hx))
                   (taken ++ String c EmptyString) t Hk).
    destruct (group_here cls k (taken ++ String c EmptyString) (String d g ++ t));
      [discriminate | congruence].
Qed.

Lemma match_here_sound p :
  forall s caps rest, match_here p s = Some (caps, rest) -> Matches p s caps rest.
Proof.
  induction p as [|[text|cls|cls] p IH]; intros s caps rest; simpl.
  - intros [= <- <-]. constructor.
  - destruct (strip text s) as [s'|] eqn:Hs; [|discriminate].
    apply strip_spec in Hs. subst s. intros H. constructor. auto.
  - intros H. apply group_here_sound in H.
    destruct H as (g & t & caps' & Hg & Hall & -> & Hk & ->).
    simpl. constructor; auto.
  - destruct s as [|c s]; [discriminate|].
    destruct (cls c) eqn:Hc; [|discriminate].
    intros H. constructor; auto.
Qed.

Lemma match_here_complete p s caps rest :
  Matches p s caps rest -> match_here p s <> None.
Proof.
  induction 1; simpl.
  - discriminate.
  - rewrite (proj2 (strip_spec text (text ++ s) s) eq_refl). assumption.
  - apply group_here_complete; assumption.
  - rewrite H. assumption.
Qed.

Lemma Located_cons p c s :
  Located p (String c s) <->
  (exists caps rest, Matches p (String c s) caps rest) \/ Located p s.
Proof.
  split.
  - intros ([|d b] & caps & rest & t & Hs & Hm); simpl in Hs.
    + left. subst t. eauto.
    + right. injection Hs as _ ->. exists b, caps, rest, t. auto.
  - intros [(caps & rest & Hm) | (b & caps & rest & t & -> & Hm)].
    + exists EmptyString, caps, rest, (String c s). auto.
    + exists (String c b), caps, rest, t. auto.
Qed.

Lemma Located_nil p :
  Located p EmptyString <-> exists caps rest, Matches p EmptyString caps rest.
Proof.
  split.
  - intros ([|d b] & caps & rest & t & Hs & Hm); simpl in Hs; [|discriminate].
    subst t. eauto.
  - intros (caps & rest & Hm). exists EmptyString, caps, rest, EmptyString. auto.
Qed.

Lemma exec_none p s : exec p s = None <-> ~ Located p s.
Proof.
  induction s as [|c s IH]; simpl.
  - rewrite Located_nil. destruct (match_here p EmptyString) as [[caps rest]|] eqn:Hm.
    + split; [discriminate|]. intros H. exfalso. apply H.
      apply match_here_sound in Hm. eauto.
    + split; [|reflexivity]. intros _ (caps & rest & H).
      apply match_here_complete in H. congruence.
  - rewrite Located_cons. destruct (match_here p (String c s)) as [[caps rest]|] eqn:Hm.
    + split; [discriminate|]. intros H. exfalso. apply H. left.
      apply match_here_sound in Hm. eauto.
    + rewrite IH. split.
      * intros Hn [(caps & rest & H)|H]; [|tauto].
        apply match_here_complete in H. congruence.
      * tauto.
Qed.

Lemma exec_some p s caps rest :
  exec p s = Some (caps, rest) ->
  exists before t, s = before ++ t /\ Matches p t caps rest.
Proof.
  induction s as [|c s IH]; simpl.
  - destruct (match_here p EmptyString) as [r|] eqn:Hm; [|discriminate].
    intros [= ->]. exists EmptyString, EmptyString. auto using match_here_sound.
  - destruct (match_here p (String c s)) as [r|] eqn:Hm.
    + intros [= ->]. exists EmptyString, (String c s). auto using match_here_sound.
    + intros H. destruct (IH H) as (b & t & -> & Ht).
      exists (String c b), t. auto.
Qed.

Lemma matchAll_from_In p s :
  forall skip caps, In caps (matchAll_from p skip s) ->
                    exists t rest, Matches p t caps rest.
Proof.
  induction s as [|c s IH]; intros skip caps; destruct skip; simpl.
  - destruct (match_here p EmptyString) as [[caps' rest]|] eqn:Hm; simpl; [|tauto].
    intros [<-|[]]. eauto using match_here_sound.
  - tauto.
  - destruct (match_here p (String c s)) as [[caps' rest]|] eqn:Hm; simpl.
    + intros [<-|H]; eauto using match_here_sound.
    + eauto.
  - eauto.
Qed.

Lemma matchAll_none p s : ~ Located p s -> matchAll p s = [].
Proof.
  unfold matchAll. induction s as [|c s IH]; simpl.
  - rewrite Located_nil. intros H.
    destruct (match_here p EmptyString) as [[caps rest]|] eqn:Hm; [|reflexivity].
    exfalso. apply H. eauto using match_here_sound.
  - rewrite Located_cons. intros H.
    destruct (match_here p (String c s)) as [[caps rest]|] eqn:Hm.
    + exfalso. apply H. left. eauto using match_here_sound.
    + apply IH. tauto.
Qed.

Lemma Located_exec p s : Located p s <-> exec p s <> None.
Proof.
  split.
  - intros H Hn. apply exec_none in Hn. tauto.
  - intros H. destruct (exec p s) as [[caps rest]|] eqn:He; [|congruence].
    apply exec_some in He. destruct He as (b & t & -> & Hm).
    exists b, caps, rest, t. auto.
Qed.

(** Take a match of a pattern given piece by piece apart into the
    texts of its pieces. *)
Ltac invert_matches :=
  repeat match goal with
         | H : Matches (_ :: _) _ _ _ |- _ => inversion H; clear H; subst
         | H : Matches [] _ _ _ |- _ => inversion H; clear H; subst
         end.

(** ** Numbers *)

Lemma mul_comm (x y : number) : mul x y = mul y x.
Proof.
  unfold mul. destruct x as [sx|sx| |sx mx ex], y as [sy|sy| |sy my ey]; simpl;
    try reflexivity; try (now rewrite xorb_comm).
  now rewrite xorb_comm, Pos.mul_comm, Z.add_comm.
Qed.

Lemma div_by_zero_not_finite (x y : number) :
  isZero y = true -> isFinite (mul (div x y) n100) = false.
Proof.
  destruct y as [sy|sy| |sy my ey]; try discriminate. intros _.
  destruct x as [sx|sx| |sx mx ex]; reflexivity.
Qed.

(** ** The parser *)

Lemma classRegex_captures t caps rest :
  Matches classRegex t caps rest ->
  exists name filename count invoked,
    caps = [name; filename; count; invoked] /\ filename <> EmptyString.
Proof.
  unfold classRegex. intros H.
  invert_matches.
  eauto 10.
Qed.

Lemma parsed_filename_nonempty xml changedFiles report classResult :
  parseReport xml changedFiles = Return report ->
  In classResult (classes (all report)) ->
  ReportClass.filename classResult <> EmptyString.
Proof.
  unfold parseReport. destruct (exec summaryRegex xml) as [[m r]|]; [|discriminate].
  intros [= <-]. simpl. rewrite in_map_iff. intros (caps & <- & Hin).
  apply matchAll_from_In in Hin. destruct Hin as (t & rest & Hm).
  apply classRegex_captures in Hm. destruct Hm as (n & f & c & i & -> & Hf).
  exact Hf.
Qed.

Lemma isChanged_spec changedFiles classResult :
  ReportClass.filename classResult <> EmptyString ->
  (isChanged changedFiles classResult = true <->
   exists file before after,
     In file changedFiles /\ file = before ++ ReportClass.filename classResult ++ after).
Proof.
  intros Hne. unfold isChanged.
  destruct (find _ changedFiles) as [file|] eqn:Hf.
  - apply find_some in Hf. destruct Hf as [Hin Hinc].
    apply includes_spec in Hinc. destruct Hinc as (b & a & Hfile).
    assert (Ht : truthy file = true).
    { unfold truthy. apply negb_true_iff, String.eqb_neq. intros ->.
      destruct b; simpl in Hfile; [|discriminate].
      destruct (ReportClass.filename classResult); [congruence | discriminate]. }
    rewrite Ht. split; [|reflexivity]. intros _. exists file, b, a. auto.
  - split; [discriminate|]. intros (file & b & a & Hin & Hfile).
    apply (find_none _ _ Hf) in Hin.
    assert (includes file (ReportClass.filename classResult) = true)
      by (apply includes_spec; eauto).
    congruence.
Qed.

(** ** Sums of natural numbers in binary64 *)

Lemma digits_shiftP n p :
  Zpos (digits2_pos (shiftP n p)) = (Zpos (digits2_pos p) + Z.of_nat n)%Z.
Proof.
  induction n as [|n IH]; [simpl; lia|].
  change (shiftP (S n) p) with (xO (shiftP n p)).
  cbn [digits2_pos]. rewrite Pos2Z.inj_succ, IH. lia.
Qed.

Lemma shiftP_add n m p : shiftP (n + m) p = shiftP n (shiftP m p).
Proof. unfold shiftP. now rewrite Nat.iter_add. Qed.

Lemma Pos_iter_shiftP p d : Pos.iter xO p d = shiftP (Pos.to_nat d) p.
Proof. unfold shiftP. now rewrite Pos2Nat.inj_iter. Qed.

Lemma shiftP_plus n p r : (shiftP n p + shiftP n r = shiftP n (p + r))%positive.
Proof.
  induction n as [|n IH]; [reflexivity|].
  change (shiftP (S n) ?x) with (xO (shiftP n x)). simpl. now rewrite IH.
Qed.

Lemma iter_pos_nat {A} (f : A -> A) n :
  forall x, iter_pos f n x = Nat.iter (Pos.to_nat n) f x.
Proof.
  induction n as [n IH|n IH|]; intros x; cbn [iter_pos].
  - rewrite !IH, Pos2Nat.inj_xI.
    replace (S (2 * Pos.to_nat n)) with (Pos.to_nat n + (Pos.to_nat n + 1)) by lia.
    now rewrite !Nat.iter_add.
  - rewrite !IH, Pos2Nat.inj_xO.
    replace (2 * Pos.to_nat n) with (Pos.to_nat n + Pos.to_nat n) by lia.
    now rewrite Nat.iter_add.
  - reflexivity.
Qed.

Lemma shr_1_shifted n :
  forall p,
    Nat.iter n shr_1 {| shr_m := Zpos (shiftP n p); shr_r := false; shr_s := false |}
    = {| shr_m := Zpos p; shr_r := false; shr_s := false |}.
Proof.
  induction n as [|n IH]; intros p; [reflexivity|].
  rewrite Nat.iter_succ_r.
  change (shiftP (S n) p) with (xO (shiftP n p)). cbn [shr_1 orb].
  apply IH.
Qed.

Lemma fexp_small d : (1 <= d <= 53)%Z -> fexp prec emax d = (d - 53)%Z.
Proof. unfold fexp, emin, prec, emax. lia. Qed.

Lemma digits_pos p : (1 <= Zpos (digits2_pos p))%Z.
Proof. lia. Qed.

Lemma shr_fexp_shifted p j :
  (Zpos (digits2_pos p) <= 53)%Z ->
  shr_fexp prec emax
    (Zpos (shiftP (j + Z.to_nat (53 - Zpos (digits2_pos p))) p))
    (Zpos (digits2_pos p) - 53 - Z.of_nat j) loc_Exact
  = ({| shr_m := Zpos (shiftP (Z.to_nat (53 - Zpos (digits2_pos p))) p);
        shr_r := false; shr_s := false |},
     (Zpos (digits2_pos p) - 53)%Z).
Proof.
  intros Hd. set (d := Zpos (digits2_pos p)) in *.
  set (n0 := Z.to_nat (53 - d)).
  assert (Hn0 : Z.of_nat n0 = (53 - d)%Z) by (unfold n0; lia).
  unfold shr_fexp. cbn [Zdigits2 shr_record_of_loc].
  rewrite digits_shiftP. fold d.
  replace (d + Z.of_nat (j + n0) + (d - 53 - Z.of_nat j))%Z with d by lia.
  rewrite fexp_small by (pose proof (digits_pos p); lia).
  replace (d - 53 - (d - 53 - Z.of_nat j))%Z with (Z.of_nat j) by lia.
  unfold shr. destruct j as [|j].
  - cbn [Z.of_nat]. f_equal. lia.
  - cbn [Z.of_nat]. rewrite iter_pos_nat, SuccNat2Pos.id_succ.
    rewrite shiftP_add, shr_1_shifted. f_equal. lia.
Qed.

Lemma binary_round_aux_shifted p j :
  (Zpos (digits2_pos p) <= 53)%Z ->
  binary_round_aux prec emax false
    (Zpos (shiftP (j + Z.to_nat (53 - Zpos (digits2_pos p))) p))
    (Zpos (digits2_pos p) - 53 - Z.of_nat j) loc_Exact
  = normal p.
Proof.
  intros Hd. unfold binary_round_aux.
  rewrite (shr_fexp_shifted p j Hd). cbn [shr_m loc_of_shr_record round_nearest_even].
  pose proof (shr_fexp_shifted p 0 Hd) as H0.
  cbn [Nat.add Z.of_nat] in H0. rewrite Z.sub_0_r in H0. rewrite H0.
  cbn [shr_m]. unfold normal.
  replace (Zpos (digits2_pos p) - 53 <=? emax - prec)%Z with true; [reflexivity|].
  symmetry. apply Z.leb_le. unfold emax, prec. lia.
Qed.

Lemma binary_round_shifted p k :
  (Zpos (digits2_pos p) <= 53)%Z ->
  binary_round prec emax false (shiftP k p) (- Z.of_nat k) = normal p.
Proof.
  intros Hd. set (d := Zpos (digits2_pos p)) in *.
  set (n0 := Z.to_nat (53 - d)).
  assert (Hn0 : Z.of_nat n0 = (53 - d)%Z) by (unfold n0; lia).
  unfold binary_round. rewrite digits_shiftP. fold d.
  replace (d + Z.of_nat k + - Z.of_nat k)%Z with d by lia.
  rewrite fexp_small by (pose proof (digits_pos p); unfold d; lia).
  unfold shl_align.
  destruct (d - 53 - - Z.of_nat k)%Z as [|t|t] eqn:E.
  - replace k with (0 + n0) by lia.
    replace (- Z.of_nat (0 + n0))%Z with (d - 53 - Z.of_nat 0)%Z by lia.
    apply binary_round_aux_shifted; exact Hd.
  - replace k with (Pos.to_nat t + n0) by lia.
    replace (- Z.of_nat (Pos.to_nat t + n0))%Z with (d - 53 - Z.of_nat (Pos.to_nat t))%Z by lia.
    apply binary_round_aux_shifted; exact Hd.
  - rewrite Pos_iter_shiftP, <- shiftP_add.
    replace (Pos.to_nat t + k) with n0 by lia.
    pose proof (binary_round_aux_shifted p 0 Hd) as H.
    cbn [Nat.add Z.of_nat] in H. rewrite Z.sub_0_r in H. exact H.
Qed.

Lemma digits_is_size p : digits2_pos p = Pos.size p.
Proof. induction p as [p IH|p IH|]; simpl; congruence. Qed.

Lemma digits_of_small p : (Zpos p < 2 ^ 53)%Z -> (Zpos (digits2_pos p) <= 53)%Z.
Proof.
  intros H. rewrite digits_is_size.
  destruct (Z.le_gt_cases (Zpos (Pos.size p)) 53) as [Hle|Hgt]; [exact Hle|exfalso].
  pose proof (Pos.size_le p) as Hs.
  apply Pos2Z.pos_le_pos in Hs. rewrite Pos2Z.inj_pow in Hs.
  assert (2 ^ 54 <= 2 ^ Zpos (Pos.size p))%Z by (apply Z.pow_le_mono_r; lia).
  change (Zpos p~0) with (2 * Zpos p)%Z in Hs.
  change (2 ^ 54)%Z with (2 * 2 ^ 53)%Z in H0. lia.
Qed.

Lemma of_Z_pos p : (Zpos p < 2 ^ 53)%Z -> of_Z (Zpos p) = normal p.
Proof.
  intros H. unfold of_Z, binary_normalize.
  apply (binary_round_shifted p 0). now apply digits_of_small.
Qed.

Lemma shl_align_shifted p ez :
  (Zpos (digits2_pos p) <= 53)%Z -> (ez <= Zpos (digits2_pos p) - 53)%Z ->
  fst (shl_align (shiftP (Z.to_nat (53 - Zpos (digits2_pos p))) p)
                 (Zpos (digits2_pos p) - 53) ez)
  = shiftP (Z.to_nat (- ez)) p.
Proof.
  intros Hd He. unfold shl_align.
  destruct (ez - (Zpos (digits2_pos p) - 53))%Z as [|t|t] eqn:E; cbn [fst].
  - f_equal. lia.
  - lia.
  - rewrite Pos_iter_shiftP, <- shiftP_add. f_equal. lia.
Qed.

Lemma add_normal p r :
  (Zpos (p + r) < 2 ^ 53)%Z -> add (normal p) (normal r) = normal (p + r).
Proof.
  intros H.
  assert (Hp : (Zpos (digits2_pos p) <= 53)%Z) by (apply digits_of_small; lia).
  assert (Hr : (Zpos (digits2_pos r) <= 53)%Z) by (apply digits_of_small; lia).
  unfold add, normal at 1 2, SFadd.
  set (ez := Z.min (Zpos (digits2_pos p) - 53) (Zpos (digits2_pos r) - 53)).
  rewrite (shl_align_shifted p ez Hp) by (unfold ez; lia).
  rewrite (shl_align_shifted r ez Hr) by (unfold ez; lia).
  cbn [cond_Zopp Z.add binary_normalize]. rewrite shiftP_plus.
  replace ez with (- Z.of_nat (Z.to_nat (- ez)))%Z at 2 by (unfold ez; lia).
  apply binary_round_shifted. now apply digits_of_small.
Qed.

Lemma add_of_Z a b :
  (0 <= a)%Z -> (0 <= b)%Z -> (a + b < 2 ^ 53)%Z ->
  add (of_Z a) (of_Z b) = of_Z (a + b).
Proof.
  intros Ha Hb H. destruct a as [|p|p]; [|destruct b as [|r|r]|]; try lia.
  - cbn [Z.add]. change (of_Z 0) with (S754_zero false).
    destruct b as [|r|r]; [reflexivity| |lia].
    rewrite of_Z_pos by lia. reflexivity.
  - rewrite Z.add_0_r, of_Z_pos by lia. reflexivity.
  - cbn [Z.add]. rewrite !of_Z_pos by lia. now apply add_normal.
Qed.

Lemma sumZ_nonneg ns : Forall (fun n => (0 <= n)%Z) ns -> (0 <= sumZ ns)%Z.
Proof. induction 1; simpl; lia. Qed.

Lemma fold_add_of_Z (field : ReportClass.t -> number) cs :
  forall ns acc,
    map field cs = map of_Z ns ->
    Forall (fun n => (0 <= n)%Z) ns -> (0 <= acc)%Z ->
    (acc + sumZ ns < 2 ^ 53)%Z ->
    fold_left (fun a classResult => add a (field classResult)) cs (of_Z acc)
    = of_Z (acc + sumZ ns).
Proof.
  induction cs as [|c cs IH]; intros [|n ns] acc Hm Hall Hacc Hlt; try discriminate.
  - simpl. now rewrite Z.add_0_r.
  - injection Hm as Hc Hm. inversion Hall as [|? ? Hn Hns]; subst.
    pose proof (sumZ_nonneg ns Hns) as Hs.
    cbn [sumZ fold_right] in Hlt. fold (sumZ ns) in Hlt.
    cbn [fold_left sumZ fold_right]. fold (sumZ ns).
    rewrite Hc, add_of_Z by lia.
    rewrite (IH ns (acc + n)%Z Hm Hns) by lia. f_equal. lia.
Qed.

(** ** The aggregator *)

(** C1: the changed bucket's summary is recomputed from the filtered
    records: its [statementsTotal] is the sum, from left to right in
    binary64, of [statementsTotal] over exactly the records kept by
    the filter, and its [statementRate] is the quotient of the sum of
    [statementsInvoked] by that total, then multiplied by 100; when the
    counts are natural numbers with sums below [2^53] these sums are
    the exact integer sums. *)
Theorem changed_summary_recomputed xml changedFiles report :
  parseReport xml changedFiles = Return report ->
  let filtered := filter (isChanged changedFiles) (classes (all report)) in
  let total :=
    fold_left (fun acc classResult => add acc (ReportClass.statementsTotal classResult))
              filtered zero in
  let invoked :=
    fold_left (fun acc classResult => add acc (ReportClass.statementsInvoked classResult))
              filtered zero in
  classes (changed report) = filtered /\
  ReportSummary.statementsTotal (summary (changed report)) = total /\
  ReportSummary.statementRate (summary (changed report)) = mul (div invoked total) n100 /\
  forall totals invokeds,
    map ReportClass.statementsTotal filtered = map of_Z totals ->
    map ReportClass.statementsInvoked filtered = map of_Z invokeds ->
    Forall (fun n => (0 <= n)%Z) totals -> Forall (fun n => (0 <= n)%Z) invokeds ->
    (sumZ totals < 2 ^ 53)%Z -> (sumZ invokeds < 2 ^ 53)%Z ->
    ReportSummary.statementsTotal (summary (changed report)) = of_Z (sumZ totals) /\
    ReportSummary.statementRate (summary (changed report))
    = mul (div (of_Z (sumZ invokeds)) (of_Z (sumZ totals))) n100.
Proof.
  unfold parseReport. destruct (exec summaryRegex xml) as [[m r]|]; [|discriminate].
  intros [= <-]. cbn zeta. cbn [all changed summary classes
                               ReportSummary.statementsTotal ReportSummary.statementRate].
  unfold sumOf. split; [reflexivity|]. split; [reflexivity|]. split; [reflexivity|].
  intros totals invokeds Ht Hi Hta Hia Htl Hil.
  change zero with (of_Z 0).
  rewrite (fold_add_of_Z _ _ totals 0%Z Ht Hta) by lia.
  rewrite (fold_add_of_Z _ _ invokeds 0%Z Hi Hia) by lia.
  split; reflexivity.
Qed.

(** C2: [parseReport] throws exactly when the summary pattern occurs
    nowhere in the document; a document with the summary and no class
    pattern parses to an empty record list. *)
Theorem parseReport_throws_iff_no_summary xml changedFiles :
  ((exists message, parseReport xml changedFiles = Throw message)
   <-> ~ Located summaryRegex xml) /\
  (Located summaryRegex xml -> ~ Located classRegex xml ->
   exists report,
     parseReport xml changedFiles = Return report /\ classes (all report) = []).
Proof.
  split.
  - rewrite <- exec_none. unfold parseReport.
    destruct (exec summaryRegex xml) as [[m r]|].
    + split; [intros [msg H]|]; discriminate.
    + split; eauto.
  - intros Hs Hc. apply Located_exec in Hs. unfold parseReport.
    destruct (exec summaryRegex xml) as [[m r]|]; [|congruence].
    eexists. split; [reflexivity|]. simpl.
    now rewrite (matchAll_none _ _ Hc).
Qed.

(** C4: a parsed record is in the changed bucket exactly when some
    changed file path contains its filename as a substring; the bucket
    is the sublist of the records selected that way, in document
    order. *)
Theorem changed_iff_path_contains_filename xml changedFiles report :
  parseReport xml changedFiles = Return report ->
  classes (changed report) = filter (isChanged changedFiles) (classes (all report)) /\
  forall classResult,
    In classResult (classes (changed report)) <->
    In classResult (classes (all report)) /\
    exists file before after,
      In file changedFiles /\
      file = before ++ ReportClass.filename classResult ++ after.
Proof.
  intros H.
  assert (Hf : classes (changed report)
               = filter (isChanged changedFiles) (classes (all report))).
  { revert H. unfold parseReport.
    destruct (exec summaryRegex xml) as [[m r]|]; [|discriminate].
    intros [= <-]. reflexivity. }
  split; [exact Hf|]. intros c. rewrite Hf, filter_In. split.
  - intros [Hin Hc]. split; [exact Hin|].
    apply isChanged_spec; eauto using parsed_filename_nonempty.
  - intros [Hin Hc]. split; [exact Hin|].
    apply isChanged_spec; eauto using parsed_filename_nonempty.
Qed.

(** ** The renderer *)

Lemma renderClass_onto (cs : list ReportClass.t) :
  forall r x, fold_left renderClass cs (r ++ x) = r ++ fold_left renderClass cs x.
Proof.
  induction cs as [|c cs IH]; intros r x; simpl; [reflexivity|].
  unfold renderClass at 2 4. rewrite append_assoc. apply IH.
Qed.

Lemma renderClass_rows (cs : list ReportClass.t) (r : string) :
  fold_left renderClass cs r = r ++ fold_left renderClass cs EmptyString.
Proof. now rewrite <- renderClass_onto, append_nil_r. Qed.

Lemma renderBucket_onto title bucket result :
  renderBucket title bucket result = result ++ renderBucket title bucket EmptyString.
Proof.
  unfold renderBucket. cbn zeta.
  rewrite (renderClass_rows _ (_ ++ _)), (renderClass_rows _ ((_ ++ _) ++ _)).
  change (EmptyString ++ "<details>" ++ nl) with ("<details>" ++ nl).
  rewrite !append_assoc. reflexivity.
Qed.

Lemma renderBucket_header title bucket :
  exists rest,
    renderBucket title bucket EmptyString = "<details>" ++ nl ++ "<summary>" ++ title ++ " " ++ rest.
Proof.
  unfold renderBucket. cbn zeta.
  rewrite renderClass_rows.
  change (EmptyString ++ "<details>" ++ nl) with ("<details>" ++ nl).
  rewrite !append_assoc. eexists. reflexivity.
Qed.

(** C3: the output is the All files section followed by the Changed
    files section, each present exactly when its bucket's summary rate
    is finite; every section opens with its own title; with no finite
    rate the output is empty, and with only the all bucket finite it is
    the All files section alone. *)
Theorem render_sections_iff_finite report :
  let allRate := ReportSummary.statementRate (summary (all report)) in
  let changedRate := ReportSummary.statementRate (summary (changed report)) in
  renderCommentMarkdown report
    = (if isFinite allRate then renderBucket "All files" (all report) EmptyString else EmptyString)
      ++ (if isFinite changedRate then renderBucket "Changed files" (changed report) EmptyString else EmptyString)
  /\ (forall title bucket, exists rest,
        renderBucket title bucket EmptyString
          = "<details>" ++ nl ++ "<summary>" ++ title ++ " " ++ rest)
  /\ (isFinite allRate = false -> isFinite changedRate = false ->
      renderCommentMarkdown report = EmptyString)
  /\ (isFinite allRate = true -> isFinite changedRate = false ->
      renderCommentMarkdown report = renderBucket "All files" (all report) EmptyString).
Proof.
  intros allRate changedRate.
  assert (Hsplit : renderCommentMarkdown report
    = (if isFinite allRate then renderBucket "All files" (all report) EmptyString else EmptyString)
      ++ (if isFinite changedRate then renderBucket "Changed files" (changed report) EmptyString else EmptyString)).
  { unfold renderCommentMarkdown. fold allRate changedRate.
    destruct (isFinite allRate), (isFinite changedRate); cbn zeta.
    - apply renderBucket_onto.
    - now rewrite append_nil_r.
    - reflexivity.
    - reflexivity. }
  split; [exact Hsplit|]. split; [apply renderBucket_header|].
  split; intros Ha Hc; rewrite Hsplit, Ha, Hc; [reflexivity | apply append_nil_r].
Qed.

(** C10: whenever the summary pattern is found, parsing returns a
    report; and when the [statementsTotal] values of the filtered
    records sum to zero, the changed rate is not finite and the output
    consists of the All files section at most. *)
Theorem zero_total_changed_section_omitted xml changedFiles :
  Located summaryRegex xml ->
  exists report,
    parseReport xml changedFiles = Return report /\
    (isZero (sumOf ReportClass.statementsTotal
               (filter (isChanged changedFiles) (classes (all report)))) = true ->
     isFinite (ReportSummary.statementRate (summary (changed report))) = false /\
     renderCommentMarkdown report
       = if isFinite (ReportSummary.statementRate (summary (all report)))
         then renderBucket "All files" (all report) EmptyString else EmptyString).
Proof.
  intros Hs. apply Located_exec in Hs. unfold parseReport.
  destruct (exec summaryRegex xml) as [[m r]|]; [|congruence].
  eexists. split; [reflexivity|]. cbn [all changed summary classes].
  intros Hz.
  assert (Hnf : isFinite (ReportSummary.statementRate (ReportSummary.mk
      (mul (div (sumOf ReportClass.statementsInvoked
                   (filter (isChanged changedFiles) (map classOfMatch (matchAll classRegex xml))))
                (sumOf ReportClass.statementsTotal
                   (filter (isChanged changedFiles) (map classOfMatch (matchAll classRegex xml)))))
           n100)
      (sumOf ReportClass.statementsTotal
         (filter (isChanged changedFiles) (map classOfMatch (matchAll classRegex xml)))))) = false).
  { cbn [ReportSummary.statementRate]. now apply div_by_zero_not_finite. }
  split; [exact Hnf|].
  unfold renderCommentMarkdown. cbn [all changed summary classes].
  rewrite Hnf. reflexivity.
Qed.

(** ** The icon mapping *)

Lemma SFcompare_antisym (x y : number) :
  SFcompare y x = match SFcompare x y with Some c => Some (CompOpp c) | None => None end.
Proof.
  destruct x as [sx|sx| |sx mx ex], y as [sy|sy| |sy my ey]; simpl;
    try reflexivity;
    try (destruct sx; reflexivity); try (destruct sy; reflexivity);
    try (destruct sx, sy; reflexivity).
  rewrite (Z.compare_antisym ex ey).
  change (Pos.compare_cont Eq my mx) with (Pos.compare my mx).
  change (Pos.compare_cont Eq mx my) with (Pos.compare mx my).
  rewrite (Pos.compare_antisym mx my).
  destruct sx, sy; simpl; try reflexivity;
    destruct (ex ?= ey)%Z; simpl; try reflexivity;
    destruct (mx ?= my)%positive; reflexivity.
Qed.

Lemma lt_iff_not_ge (x y : number) :
  lt x y = true <-> ge x y = false /\ isNaN x = false /\ isNaN y = false.
Proof.
  unfold lt, ge, SFltb, SFleb. rewrite (SFcompare_antisym x y).
  assert (Hn : SFcompare x y = None <-> isNaN x = true \/ isNaN y = true).
  { destruct x as [sx|sx| |sx mx ex], y as [sy|sy| |sy my ey]; simpl;
      intuition congruence. }
  destruct (SFcompare x y) as [[]|]; simpl;
    destruct (isNaN x), (isNaN y); intuition congruence.
Qed.

Lemma SFleb_trans (x y z : number) :
  SFleb x y = true -> SFleb y z = true -> SFleb x z = true.
Proof.
  unfold SFleb.
  destruct x as [sx|sx| |sx mx ex], y as [sy|sy| |sy my ey], z as [sz|sz| |sz mz ez];
    simpl; try discriminate; try reflexivity;
    try (destruct sx; simpl; try discriminate; try reflexivity);
    try (destruct sy; simpl; try discriminate; try reflexivity);
    try (destruct sz; simpl; try discriminate; try reflexivity);
    change (Pos.compare_cont Eq) with Pos.compare;
    repeat match goal with
           | |- context [(?a ?= ?b)%Z] => destruct (Z.compare_spec a b)
           | |- context [(?a ?= ?b)%positive] => destruct (Pos.compare_spec a b)
           end; simpl; try discriminate; try reflexivity; intros; subst; lia.
Qed.

Lemma ge_not_NaN (x y : number) : ge x y = true -> isNaN x = false.
Proof.
  unfold ge, SFleb.
  destruct x as [sx|sx| |sx mx ex], y as [sy|sy| |sy my ey]; simpl;
    congruence.
Qed.

Lemma ge_NaN (y : number) : ge NaN y = false.
Proof. destruct y; reflexivity. Qed.

Lemma ge_0_8_ge_0_6 (x : number) : ge x n0_8 = true -> ge x n0_6 = true.
Proof. apply SFleb_trans. reflexivity. Qed.

Lemma ge_mono (x x' t : number) :
  SFleb x x' = true -> ge x t = true -> ge x' t = true.
Proof. unfold ge. intros H1 H2. exact (SFleb_trans _ _ _ H2 H1). Qed.

(** C8: the icon is green exactly for [rate >= 0.8], yellow exactly
    for [0.6 <= rate < 0.8], red exactly for [rate < 0.6] or NaN; and
    the icon never goes down when the rate goes up. *)
Theorem coverageRateIcon_step_function (rate : number) :
  let icon := fun r => coverageRateIcon r (n0_8, n0_6) in
  (icon rate = ":green_circle:" <-> ge rate n0_8 = true) /\
  (icon rate = ":yellow_circle:" <-> ge rate n0_6 = true /\ lt rate n0_8 = true) /\
  (icon rate = ":red_circle:" <-> lt rate n0_6 = true \/ isNaN rate = true) /\
  (forall rate', SFleb rate rate' = true ->
     (icon rate = ":green_circle:" -> icon rate' = ":green_circle:") /\
     (icon rate = ":yellow_circle:" -> icon rate' <> ":red_circle:")).
Proof.
  cbn zeta. unfold coverageRateIcon. cbn [fst snd].
  split; [|split; [|split]].
  - split.
    + destruct (ge rate n0_8); [reflexivity|]. destruct (ge rate n0_6); discriminate.
    + intros ->. reflexivity.
  - split.
    + destruct (ge rate n0_8) eqn:H8; [discriminate|].
      destruct (ge rate n0_6) eqn:H6; [|discriminate]. intros _.
      split; [reflexivity|].
      apply lt_iff_not_ge. repeat split; auto. eapply ge_not_NaN; eauto.
    + intros [H6 H8]. apply lt_iff_not_ge in H8. destruct H8 as [-> _].
      now rewrite H6.
  - split.
    + destruct (ge rate n0_8) eqn:H8; [discriminate|].
      destruct (ge rate n0_6) eqn:H6; [discriminate|]. intros _.
      destruct (isNaN rate) eqn:Hn; [now right | left].
      apply lt_iff_not_ge. auto.
    + intros [H6 | Hn].
      * apply lt_iff_not_ge in H6. destruct H6 as [H6 _].
        destruct (ge rate n0_8) eqn:H8.
        -- apply ge_0_8_ge_0_6 in H8. congruence.
        -- now rewrite H6.
      * destruct rate; try discriminate. reflexivity.
  - intros rate' H. split.
    + destruct (ge rate n0_8) eqn:H8.
      * intros _. now rewrite (ge_mono _ _ _ H H8).
      * destruct (ge rate n0_6); discriminate.
    + destruct (ge rate n0_8) eqn:H8; [discriminate|].
      destruct (ge rate n0_6) eqn:H6; [|discriminate]. intros _.
      rewrite (ge_mono _ _ _ H H6). destruct (ge rate' n0_8); discriminate.
Qed.

(** ** The upsert protocol *)

Lemma find_append {A} (f : A -> bool) (l1 l2 : list A) :
  find f (l1 ++ l2)%list = match find f l1 with Some x => Some x | None => find f l2 end.
Proof. induction l1 as [|a l1 IH]; simpl; [reflexivity|]. destruct (f a); auto. Qed.

Lemma findExisting_spec issueNumber pages :
  forall page,
    findExisting issueNumber page pages
    = (map (ListComments issueNumber) (seq page (pagesRead pages)),
       find isTagged (concat pages)).
Proof.
  induction pages as [|comments pages IH]; intros page; simpl; [reflexivity|].
  rewrite find_append. destruct (find isTagged comments); [reflexivity|].
  rewrite IH. reflexivity.
Qed.

Lemma pagesRead_first pages comment :
  find isTagged (concat pages) = Some comment ->
  exists before page after,
    pages = (before ++ page :: after)%list /\
    pagesRead pages = S (length before) /\
    find isTagged (concat before) = None /\
    find isTagged page = Some comment.
Proof.
  induction pages as [|comments pages IH]; simpl; [discriminate|].
  rewrite find_append. destruct (find isTagged comments) as [c|] eqn:Hf.
  - intros [= ->]. exists [], comments, pages. auto.
  - intros H. destruct (IH H) as (b & p & a & -> & Hr & Hb & Hp).
    exists (comments :: b), p, a. simpl. rewrite find_append, Hf, Hr. auto.
Qed.

(** C5: the scan requests the pages in order up to the first page
    holding a tagged comment and takes the first tagged comment in
    listing order; then exactly one write follows: an update of that
    comment when there is one, a creation otherwise, with a body that
    ends with the tag. *)
Theorem upsert_protocol pages issueNumber text :
  let published := text ++ nl ++ nl ++ commentTag in
  let listing := map (ListComments issueNumber) (seq 1 (pagesRead pages)) in
  endsWith published commentTag = true /\
  createOrUpdateIssueComment pages issueNumber text
    = (listing ++ match find isTagged (concat pages) with
                  | Some comment => [UpdateComment (id comment) published]
                  | None => [CreateComment issueNumber published]
                  end)%list /\
  (forall comment,
     find isTagged (concat pages) = Some comment ->
     exists before page after,
       pages = (before ++ page :: after)%list /\
       pagesRead pages = S (length before) /\
       find isTagged (concat before) = None /\
       find isTagged page = Some comment) /\
  (find isTagged (concat pages) = None -> pagesRead pages = length pages).
Proof.
  cbn zeta. split; [|split; [|split]].
  - rewrite <- !append_assoc. apply endsWith_append.
  - unfold createOrUpdateIssueComment. rewrite findExisting_spec.
    destruct (find isTagged (concat pages)); reflexivity.
  - apply pagesRead_first.
  - induction pages as [|comments pages IH]; simpl; [reflexivity|].
    rewrite find_append. destruct (find isTagged comments); [discriminate|].
    intros H. now rewrite IH.
Qed.

(** ** Splitting and joining *)

Lemma split_not_nil sep s : split sep s <> [].
Proof.
  destruct s as [|c s]; simpl; [discriminate|].
  destruct (Ascii.eqb c sep); [discriminate|]. destruct (split sep s); discriminate.
Qed.

Lemma split_free sep s : Forall (fun seg => free_of sep seg = true) (split sep s).
Proof.
  induction s as [|c s IH]; simpl.
  - repeat constructor.
  - destruct (Ascii.eqb c sep) eqn:E.
    + constructor; [reflexivity | exact IH].
    + destruct (split sep s) as [|seg segs]; [repeat constructor; simpl; now rewrite E|].
      inversion IH; subst. constructor; [simpl; now rewrite E | assumption].
Qed.

Lemma join_cons sep seg segs :
  segs <> [] -> join sep (seg :: segs) = seg ++ sep ++ join sep segs.
Proof. destruct segs; [congruence | reflexivity]. Qed.

Lemma join_split sep s : join (String sep EmptyString) (split sep s) = s.
Proof.
  induction s as [|c s IH]; simpl; [reflexivity|].
  destruct (Ascii.eqb_spec c sep) as [->|Hne].
  - rewrite join_cons by apply split_not_nil. simpl. now rewrite IH.
  - pose proof (split_not_nil sep s) as Hn.
    destruct (split sep s) as [|seg segs]; [congruence|].
    destruct segs as [|seg' segs].
    + simpl in *. congruence.
    + rewrite join_cons by discriminate. rewrite join_cons in IH by discriminate.
      rewrite <- IH. reflexivity.
Qed.

Lemma split_free_append sep seg s :
  free_of sep seg = true ->
  split sep (seg ++ String sep s) = seg :: split sep s.
Proof.
  induction seg as [|c seg IH]; simpl.
  - intros _. now rewrite Ascii.eqb_refl.
  - rewrite andb_true_iff, negb_true_iff. intros [Hc Hf].
    rewrite Hc, IH by assumption. reflexivity.
Qed.

Lemma split_free_one sep seg : free_of sep seg = true -> split sep seg = [seg].
Proof.
  induction seg as [|c seg IH]; simpl; [reflexivity|].
  rewrite andb_true_iff, negb_true_iff. intros [Hc Hf].
  rewrite Hc, IH by assumption. reflexivity.
Qed.

Lemma split_join sep segs :
  segs <> [] -> Forall (fun seg => free_of sep seg = true) segs ->
  split sep (join (String sep EmptyString) segs) = segs.
Proof.
  induction segs as [|seg segs IH]; [congruence|]. intros _ Hall.
  inversion Hall as [|? ? Hseg Hall']; subst.
  destruct segs as [|seg' segs].
  - simpl. now apply split_free_one.
  - rewrite join_cons by discriminate.
    change (seg ++ String sep EmptyString ++ join (String sep EmptyString) (seg' :: segs))
      with (seg ++ String sep (join (String sep EmptyString) (seg' :: segs))).
    rewrite split_free_append by assumption.
    rewrite IH; [reflexivity | discriminate | assumption].
Qed.

(** The characters of a joined list: every segment and one separator
    each, but for one separator. *)
Lemma length_join sep segs :
  segs <> [] ->
  S (String.length (join (String sep EmptyString) segs))
  = list_sum (map (fun seg => S (String.length seg)) segs).
Proof.
  induction segs as [|seg segs IH]; [congruence|]. intros _.
  destruct segs as [|seg' segs].
  - simpl. lia.
  - assert (Hn : seg' :: segs <> []) by discriminate.
    specialize (IH Hn). remember (seg' :: segs) as L.
    rewrite join_cons by assumption. simpl map. simpl list_sum.
    rewrite <- IH, !length_append. simpl. lia.
Qed.

Lemma list_sum_rev l : list_sum (rev l) = list_sum l.
Proof.
  induction l as [|a l IH]; simpl; [reflexivity|].
  rewrite list_sum_app, IH. simpl. lia.
Qed.

Lemma length_join_rev sep segs :
  String.length (join (String sep EmptyString) (rev segs))
  = String.length (join (String sep EmptyString) segs).
Proof.
  destruct segs as [|seg segs]; [reflexivity|].
  assert (H1 : rev (seg :: segs) <> []).
  { intros H. apply (f_equal (@length _)) in H. rewrite length_rev in H. discriminate. }
  pose proof (length_join sep _ H1) as E1.
  pose proof (length_join sep (seg :: segs) ltac:(discriminate)) as E2.
  rewrite map_rev, list_sum_rev in E1. lia.
Qed.

(** ** The class-name abbreviation *)

Lemma free_of_append c a b :
  free_of c (a ++ b) = free_of c a && free_of c b.
Proof. induction a as [|d a IH]; simpl; [reflexivity|]. now rewrite IH, andb_assoc. Qed.

Lemma ends_with_dot_segment x seg before :
  seg <> EmptyString -> x ++ seg = before ++ "." -> free_of "." seg = false.
Proof.
  revert before; induction x as [|c x IH]; intros before Hne H; simpl in H.
  - subst seg. rewrite free_of_append. simpl. apply andb_false_r.
  - destruct before as [|d before]; simpl in H.
    + injection H as _ H. destruct x; simpl in H; [congruence | discriminate].
    + injection H as _ H. eauto.
Qed.

Lemma plain_not_dot_ended acc seg :
  plainSegment seg -> endsWith (acc ++ seg) "." = false.
Proof.
  intros [Hne Hf]. destruct (endsWith (acc ++ seg) ".") eqn:E; [|reflexivity].
  apply endsWith_spec in E. destruct E as [before E].
  apply ends_with_dot_segment in E; congruence.
Qed.

Lemma plain_step acc next :
  plainSegment next -> endsWith (acc ++ "." ++ next) "." = false.
Proof. intros H. rewrite <- append_assoc. now apply plain_not_dot_ended. Qed.

Lemma three_dots_dot_ended acc :
  endsWith acc "..." = true -> endsWith acc "." = true.
Proof.
  rewrite !endsWith_spec. intros [before ->]. exists (before ++ "..").
  now rewrite append_assoc.
Qed.

Lemma not_dot_ended_no_dots acc :
  endsWith acc "." = false -> endsWith acc "..." = false.
Proof.
  intros H. destruct (endsWith acc "...") eqn:E; [|reflexivity].
  apply three_dots_dot_ended in E. congruence.
Qed.

Lemma joinOnto_length acc remaining :
  String.length acc <= String.length (joinOnto acc remaining).
Proof.
  revert acc; induction remaining as [|next remaining IH]; intros acc; [simpl; lia|].
  change (joinOnto acc (next :: remaining)) with (joinOnto (acc ++ "." ++ next) remaining).
  specialize (IH (acc ++ "." ++ next)). rewrite length_append in IH. lia.
Qed.

Lemma joinOnto_join seg segs : joinOnto seg segs = join "." (seg :: segs).
Proof.
  revert seg; induction segs as [|next segs IH]; intros seg; [reflexivity|].
  rewrite join_cons by discriminate.
  change (joinOnto seg (next :: segs)) with (joinOnto (seg ++ "." ++ next) segs).
  rewrite IH. destruct segs as [|next' segs].
  - simpl. reflexivity.
  - rewrite !join_cons by discriminate. now rewrite !append_assoc.
Qed.

(** Within the limit and with plain segments, the fold appends every
    segment. *)
Lemma abbreviate_within_limit remaining :
  forall acc,
    Forall plainSegment remaining ->
    endsWith acc "." = false ->
    String.length (joinOnto acc remaining) <= 77 ->
    fold_left abbreviateStep remaining acc = joinOnto acc remaining.
Proof.
  induction remaining as [|next remaining IH]; intros acc Hall Hacc Hlen; [reflexivity|].
  inversion Hall as [|? ? Hnext Hall']; subst.
  change (joinOnto acc (next :: remaining)) with (joinOnto (acc ++ "." ++ next) remaining) in *.
  pose proof (joinOnto_length (acc ++ "." ++ next) remaining) as Hle.
  simpl fold_left. unfold abbreviateStep at 2.
  rewrite (not_dot_ended_no_dots _ Hacc).
  replace (80 - 3 <? String.length (acc ++ "." ++ next))%nat with false
    by (symmetry; apply Nat.ltb_ge; change (80 - 3) with 77; lia).
  apply IH; auto using plain_step.
Qed.

Lemma abbreviateStepCut_fst remaining :
  forall acc cut,
    fst (fold_left abbreviateStepCut remaining (acc, cut))
    = fold_left abbreviateStep remaining acc.
Proof.
  induction remaining as [|next remaining IH]; intros acc cut; [reflexivity|].
  simpl. unfold abbreviateStep at 2.
  destruct (endsWith acc "..."); [apply IH|].
  destruct (_ <? _)%nat; apply IH.
Qed.

(** With plain segments, the three dots at the end mark truncation. *)
Lemma abbreviateStepCut_dots remaining :
  forall acc cut,
    Forall plainSegment remaining ->
    (cut = false /\ endsWith acc "." = false) \/ (cut = true /\ endsWith acc "..." = true) ->
    let st := fold_left abbreviateStepCut remaining (acc, cut) in
    endsWith (fst st) "..." = snd st.
Proof.
  induction remaining as [|next remaining IH]; intros acc cut Hall Hinv.
  - simpl. destruct Hinv as [[-> H]|[-> H]]; [now apply not_dot_ended_no_dots | exact H].
  - inversion Hall as [|? ? Hnext Hall']; subst. simpl fold_left.
    destruct Hinv as [[-> H]|[-> H]].
    + rewrite (not_dot_ended_no_dots _ H).
      destruct (_ <? _)%nat; apply IH; auto.
      * right. split; [reflexivity | apply endsWith_append].
      * left. split; [reflexivity | now apply plain_step].
    + rewrite H. apply IH; auto.
Qed.

(** The output stays within 80 characters when the innermost segment
    has at most 77. *)
Lemma abbreviate_bound remaining :
  forall acc,
    String.length acc <= 77 \/ (endsWith acc "..." = true /\ String.length acc <= 80) ->
    String.length (fold_left abbreviateStep remaining acc) <= 80.
Proof.
  induction remaining as [|next remaining IH]; intros acc Hinv.
  - simpl. lia.
  - simpl. apply IH. unfold abbreviateStep.
    destruct (endsWith acc "...") eqn:E; [right; split; [exact E | lia]|].
    destruct Hinv as [Hlen|[Hd _]]; [|congruence].
    destruct (80 - 3 <? String.length (acc ++ "." ++ next))%nat eqn:L.
    + right. split; [apply endsWith_append|]. rewrite length_append. simpl. lia.
    + left. apply Nat.ltb_ge in L. exact L.
Qed.

Lemma segmentsNonEmpty_plain name :
  segmentsNonEmpty name = true -> Forall plainSegment (split "." name).
Proof.
  unfold segmentsNonEmpty. rewrite forallb_forall. intros H.
  pose proof (split_free "." name) as Hf. rewrite Forall_forall in *.
  intros seg Hin. split; [|auto].
  apply H in Hin. now apply negb_true_iff, String.eqb_neq in Hin.
Qed.

Lemma rev_split_cons name :
  exists seg0 rest, rev (split "." name) = seg0 :: rest.
Proof.
  destruct (rev (split "." name)) as [|seg0 rest] eqn:E; [|eauto].
  apply (f_equal (@rev _)) in E. rewrite rev_involutive in E.
  now apply split_not_nil in E.
Qed.

Lemma abbreviate_short name :
  segmentsNonEmpty name = true -> String.length name <= 77 ->
  abbreviate name = join "." (rev (split "." name)).
Proof.
  intros Hne Hlen. apply segmentsNonEmpty_plain, Forall_rev in Hne.
  assert (Hl : String.length (join "." (rev (split "." name))) <= 77).
  { rewrite (length_join_rev "."), (join_split "."). exact Hlen. }
  unfold abbreviate. destruct (rev_split_cons name) as (seg0 & rest & E).
  rewrite E in *. cbn [hd tl]. inversion Hne as [|? ? H0 Hrest]; subst.
  rewrite <- joinOnto_join in *. apply abbreviate_within_limit; auto.
  apply (plain_not_dot_ended EmptyString seg0 H0).
Qed.

Lemma stuck_after_dots remaining :
  forall acc, endsWith acc "..." = true -> fold_left abbreviateStep remaining acc = acc.
Proof.
  induction remaining as [|next remaining IH]; intros acc H; [reflexivity|].
  simpl. unfold abbreviateStep at 2. rewrite H. now apply IH.
Qed.

(** On plain segments the source and the specification's procedure
    agree. *)
Lemma abbreviate_agrees_from remaining :
  forall acc,
    Forall plainSegment remaining -> endsWith acc "." = false ->
    fold_left abbreviateStep remaining acc = abbreviateSpecFrom acc remaining.
Proof.
  induction remaining as [|next remaining IH]; intros acc Hall Hacc; [reflexivity|].
  inversion Hall as [|? ? Hnext Hall']; subst.
  simpl. unfold abbreviateStep at 2. rewrite (not_dot_ended_no_dots _ Hacc).
  change (80 - 3) with 77. rewrite Nat.ltb_antisym.
  destruct (_ <=? 77)%nat; cbn [negb].
  - apply IH; [assumption | now apply plain_step].
  - apply stuck_after_dots, endsWith_append.
Qed.

(** C6: for a name without empty segment, the abbreviation is the
    procedure of the specification with the remaining segments taken
    from the inner one to the outer one: split on the dot, reverse,
    keep the innermost segment, append the others each after a dot
    while the total stays within 77 characters, and end with three
    dots at the first one that would go beyond. *)
Theorem abbreviate_inner_to_outer name :
  segmentsNonEmpty name = true -> abbreviate name = abbreviateInnerToOuter name.
Proof.
  intros Hne. apply segmentsNonEmpty_plain, Forall_rev in Hne.
  unfold abbreviate, abbreviateInnerToOuter.
  destruct (rev_split_cons name) as (seg0 & rest & E).
  rewrite E in *. cbn [hd tl]. inversion Hne as [|? ? H0 Hrest]; subst.
  apply abbreviate_agrees_from; auto. apply (plain_not_dot_ended EmptyString seg0 H0).
Qed.

(** With consecutive dots the three dots of the name are taken for the
    truncation mark: on [a....b] the source stops at [b...], although
    nothing exceeds the limit. *)
Example abbreviate_consecutive_dots :
  abbreviate "a....b" = "b..." /\
  abbreviateInnerToOuter "a....b" = "b....a" /\
  truncated "a....b" = false.
Proof. repeat split. Qed.

(** C7: for a name without empty segments: within 77 characters the
    abbreviation is the name with its segments reversed, and applying
    it twice gives the name back; the output ends with three dots
    exactly when the truncation branch was taken; and the output has at
    most 80 characters when the innermost segment has at most 77. *)
Theorem abbreviate_reverses_marks_bounds name :
  segmentsNonEmpty name = true ->
  (String.length name <= 77 ->
   abbreviate name = join "." (rev (split "." name)) /\
   abbreviate (abbreviate name) = name) /\
  endsWith (abbreviate name) "..." = truncated name /\
  (String.length (hd EmptyString (rev (split "." name))) <= 77 ->
   String.length (abbreviate name) <= 80).
Proof.
  intros Hne. split; [|split].
  - intros Hlen. pose proof (abbreviate_short name Hne Hlen) as E.
    split; [exact E|]. rewrite E.
    assert (Hs : split "." (join "." (rev (split "." name))) = rev (split "." name)).
    { apply (split_join ".").
      - destruct (rev_split_cons name) as (seg0 & rest & ->). discriminate.
      - apply Forall_rev, split_free. }
    rewrite abbreviate_short.
    + now rewrite Hs, rev_involutive, (join_split ".").
    + unfold segmentsNonEmpty in *. rewrite Hs. rewrite forallb_forall in *.
      intros seg Hin. apply Hne. now apply in_rev.
    + now rewrite (length_join_rev "."), (join_split ".").
  - apply segmentsNonEmpty_plain, Forall_rev in Hne.
    unfold abbreviate, truncated. destruct (rev_split_cons name) as (seg0 & rest & E).
    rewrite E in *. cbn [hd tl]. inversion Hne as [|? ? H0 Hrest]; subst.
    rewrite <- (abbreviateStepCut_fst rest seg0 false).
    apply abbreviateStepCut_dots; auto.
    left. split; [reflexivity | apply (plain_not_dot_ended EmptyString seg0 H0)].
  - intros H. unfold abbreviate. apply abbreviate_bound. now left.
Qed.

(** ** Numeric text *)

Lemma span_snd p c s :
  snd (span p (String c s)) = if p c then snd (span p s) else String c s.
Proof. simpl. destruct (p c); [|reflexivity]. now destruct (span p s). Qed.

Lemma noDigit_span p s : noDigit s = true -> noDigit (snd (span p s)) = true.
Proof.
  induction s as [|c s IH]; [reflexivity|]. intros H. rewrite span_snd.
  destruct (p c); [|exact H]. simpl in H. apply andb_true_iff in H. tauto.
Qed.

Lemma noDigit_take_sign s : noDigit s = true -> noDigit (snd (take_sign s)) = true.
Proof.
  destruct s as [|c s]; [reflexivity|]. intros H. simpl.
  assert (noDigit s = true) by (simpl in H; apply andb_true_iff in H; tauto).
  destruct (Ascii.eqb c "-"); [assumption|]. destruct (Ascii.eqb c "+"); assumption.
Qed.

Lemma noDigit_no_digits s : noDigit s = true -> span isDigit s = (EmptyString, s).
Proof.
  destruct s as [|c s]; [reflexivity|]. simpl. intros H.
  apply andb_true_iff in H. destruct H as [H _]. apply negb_true_iff in H.
  now rewrite H.
Qed.

Lemma parseInt_noDigit text : noDigit text = true -> parseInt text = NaN.
Proof.
  intros H. unfold parseInt, trimStart.
  apply (noDigit_span isWhiteSpace), noDigit_take_sign in H.
  destruct (take_sign _) as [neg s1]. simpl in H.
  now rewrite (noDigit_no_digits _ H).
Qed.

Lemma parseFloat_noDigit text : noDigit text = true -> isFinite (parseFloat text) = false.
Proof.
  intros H. unfold parseFloat, trimStart.
  apply (noDigit_span isWhiteSpace), noDigit_take_sign in H.
  destruct (take_sign _) as [neg s1]. simpl in H.
  destruct (startsWith s1 "Infinity"); [reflexivity|].
  rewrite (noDigit_no_digits _ H).
  destruct s1 as [|c s1]; [reflexivity|].
  destruct (Ascii.eqb c "."); [|reflexivity].
  assert (H' : noDigit s1 = true) by (simpl in H; apply andb_true_iff in H; tauto).
  now rewrite (noDigit_no_digits _ H').
Qed.

(** Rounding a natural number never gives NaN. *)

Lemma shr_m_of_loc m l : shr_m (shr_record_of_loc m l) = m.
Proof. destruct l as [|[]]; reflexivity. Qed.

Lemma shr_1_nonneg mrs : (0 <= shr_m mrs)%Z -> (0 <= shr_m (shr_1 mrs))%Z.
Proof.
  destruct mrs as [m r s]. simpl.
  destruct m as [|[p|p|]|[p|p|]]; simpl; lia.
Qed.

Lemma iter_pos_shr_1_nonneg n :
  forall mrs, (0 <= shr_m mrs)%Z -> (0 <= shr_m (iter_pos shr_1 n mrs))%Z.
Proof.
  induction n as [n IH|n IH|]; intros mrs H; simpl; auto using shr_1_nonneg.
Qed.

Lemma shr_fexp_nonneg m e l :
  (0 <= m)%Z -> (0 <= shr_m (fst (shr_fexp prec emax m e l)))%Z.
Proof.
  intros H. unfold shr_fexp, shr.
  destruct (_ - e)%Z; simpl; rewrite ?shr_m_of_loc; auto.
  apply iter_pos_shr_1_nonneg. now rewrite shr_m_of_loc.
Qed.

Lemma round_nearest_even_nonneg m l :
  (0 <= m)%Z -> (0 <= round_nearest_even m l)%Z.
Proof.
  intros H. destruct l as [|[]]; simpl; try lia. destruct (Z.even m); lia.
Qed.

Lemma binary_round_aux_not_NaN s m e l :
  (0 <= m)%Z -> isNaN (binary_round_aux prec emax s m e l) = false.
Proof.
  intros H. unfold binary_round_aux.
  pose proof (shr_fexp_nonneg m e l H) as H1.
  destruct (shr_fexp prec emax m e l) as [mrs' e']. simpl in H1.
  pose proof (shr_fexp_nonneg _ e' loc_Exact
                (round_nearest_even_nonneg _ (loc_of_shr_record mrs') H1)) as H2.
  destruct (shr_fexp prec emax _ e' loc_Exact) as [mrs'' e'']. simpl in H2.
  destruct (shr_m mrs''); [reflexivity | | lia].
  destruct (_ <=? _)%Z; reflexivity.
Qed.

Lemma of_decimal_integer_not_NaN s z :
  (0 <= z)%Z -> isNaN (of_decimal s z 0) = false.
Proof.
  intros H. destruct z as [|p|p]; [reflexivity | | lia].
  unfold of_decimal. cbn [Z.leb Z.compare]. unfold binary_round.
  destruct (shl_align _ _ _) as [mz ez]. now apply binary_round_aux_not_NaN.
Qed.

Lemma digits_value_from_nonneg s :
  (forall c, In c (list_ascii_of_string s) -> isDigit c = true) ->
  forall acc, (0 <= acc)%Z -> (0 <= digits_value_from acc s)%Z.
Proof.
  induction s as [|c s IH]; intros Hall acc Hacc; cbn [digits_value_from]; [exact Hacc|].
  apply IH; [intros d Hd; apply Hall; simpl; auto|].
  assert (Hc : isDigit c = true) by (apply Hall; simpl; auto).
  unfold isDigit in Hc. apply andb_true_iff in Hc. destruct Hc as [Hc _].
  apply Nat.leb_le in Hc. unfold digit_value. lia.
Qed.

Lemma span_all p s :
  s <> EmptyString -> (forall c, In c (list_ascii_of_string s) -> p c = true) ->
  fst (span p s) = s.
Proof.
  intros _. induction s as [|c s IH]; intros Hall; [reflexivity|]. simpl.
  rewrite (Hall c) by (simpl; auto).
  specialize (IH (fun d Hd => Hall d (or_intror Hd))).
  destruct (span p s). simpl in *. congruence.
Qed.

Lemma summaryRegex_captures t caps rest :
  Matches summaryRegex t caps rest ->
  exists count invoked rate branch,
    caps = [count; invoked; rate; branch] /\ count <> EmptyString /\
    (forall c, In c (list_ascii_of_string count) -> isDigit c = true).
Proof.
  unfold summaryRegex. intros H.
  invert_matches.
  eauto 10.
Qed.

Lemma parseInt_digits count :
  count <> EmptyString -> (forall c, In c (list_ascii_of_string count) -> isDigit c = true) ->
  parseInt count = of_decimal false (digits_value count) 0 /\
  isNaN (parseInt count) = false.
Proof.
  intros Hne Hall.
  assert (E : parseInt count = of_decimal false (digits_value count) 0).
  { unfold parseInt, trimStart. destruct count as [|c s]; [congruence|].
    assert (Hc : isDigit c = true) by (apply Hall; simpl; auto).
    assert (Hw : isWhiteSpace c = false).
    { revert Hc. unfold isDigit, isWhiteSpace.
      destruct (48 <=? nat_of_ascii c)%nat eqn:E1; [|discriminate].
      destruct (nat_of_ascii c <=? 57)%nat eqn:E2; [|discriminate].
      apply Nat.leb_le in E1, E2. intros _.
      repeat match goal with
             | |- context [(?a <=? ?b)%nat] => destruct (Nat.leb_spec a b)
             | |- context [(?a =? ?b)%nat] => destruct (Nat.eqb_spec a b)
             end; try reflexivity; lia. }
    rewrite span_snd, Hw.
    assert (Hs : take_sign (String c s) = (false, String c s)).
    { simpl. destruct (Ascii.eqb_spec c "-") as [->|_]; [discriminate|].
      destruct (Ascii.eqb_spec c "+") as [->|_]; [discriminate|]. reflexivity. }
    rewrite Hs. pose proof (span_all isDigit (String c s) Hne Hall) as Hf.
    destruct (span isDigit (String c s)) as [ds r]. simpl in Hf. subst ds.
    reflexivity. }
  split; [exact E|]. rewrite E. apply of_decimal_integer_not_NaN.
  now apply digits_value_from_nonneg.
Qed.

(** ** Sample documents *)

(** C9: whenever the summary pattern is found the report is returned,
    whatever the numeric texts are: a per-unit count without any digit
    becomes NaN, a document-level rate without any digit becomes a
    non-finite rate, and the document-level count is a non-empty run of
    digits, so that it is never NaN. *)
Theorem numeric_text_tolerance xml changedFiles :
  Located summaryRegex xml ->
  exists count invoked rate branch rest report,
    exec summaryRegex xml = Some ([count; invoked; rate; branch], rest) /\
    parseReport xml changedFiles = Return report /\
    classes (all report) = map classOfMatch (matchAll classRegex xml) /\
    (forall classMatch,
       (noDigit (nth 2 classMatch EmptyString) = true ->
        ReportClass.statementsTotal (classOfMatch classMatch) = NaN) /\
       (noDigit (nth 3 classMatch EmptyString) = true ->
        ReportClass.statementsInvoked (classOfMatch classMatch) = NaN)) /\
    ReportSummary.statementRate (summary (all report)) = parseFloat rate /\
    (noDigit rate = true ->
     isFinite (ReportSummary.statementRate (summary (all report))) = false) /\
    count <> EmptyString /\
    (forall c, In c (list_ascii_of_string count) -> isDigit c = true) /\
    ReportSummary.statementsTotal (summary (all report))
      = of_decimal false (digits_value count) 0 /\
    isNaN (ReportSummary.statementsTotal (summary (all report))) = false.
Proof.
  intros Hs. apply Located_exec in Hs.
  destruct (exec summaryRegex xml) as [[caps rest]|] eqn:He; [|congruence].
  pose proof (exec_some _ _ _ _ He) as (before & t & _ & Hm).
  apply summaryRegex_captures in Hm.
  destruct Hm as (count & invoked & rate & branch & -> & Hne & Hall).
  destruct (parseInt_digits count Hne Hall) as [Hv Hn].
  exists count, invoked, rate, branch, rest. eexists.
  split; [reflexivity|]. split; [unfold parseReport; rewrite He; reflexivity|].
  cbn [all summary classes ReportSummary.statementRate ReportSummary.statementsTotal nth].
  repeat split; auto using parseInt_noDigit, parseFloat_noDigit;
    intros H; apply (parseInt_noDigit _ H).
Qed.

(** ** Concrete inputs *)

Lemma Located_by_exec p s : exec p s <> None -> Located p s.
Proof. apply Located_exec. Qed.

Lemma not_Located_by_exec p s : exec p s = None -> ~ Located p s.
Proof. apply exec_none. Qed.

(** The scenario of the specification, end to end. *)
Example scenario_rendered :
  exists report,
    parseReport scenarioDoc ["src/a/B.scala"] = Return report /\
    renderCommentMarkdown report
    = "<details>" ++ nl
      ++ "<summary>All files :green_circle: 80.0% (80/100)</summary>" ++ nl ++ nl
      ++ "| Class | Statement coverage |" ++ nl ++ "|---|---|" ++ nl
      ++ "| `B.a` | :red_circle: 50.0% (5/10) |" ++ nl ++ nl
      ++ "</details>" ++ nl
      ++ "<details>" ++ nl
      ++ "<summary>Changed files :red_circle: 50.0% (5/10)</summary>" ++ nl ++ nl
      ++ "| Class | Statement coverage |" ++ nl ++ "|---|---|" ++ nl
      ++ "| `B.a` | :red_circle: 50.0% (5/10) |" ++ nl ++ nl
      ++ "</details>" ++ nl.
Proof.
  eexists. split.
  - vm_compute. reflexivity.
  - vm_compute. reflexivity.
Qed.

(** The thresholds belong to the upper side; NaN is red. *)
Example icon_boundaries :
  map (fun rate => coverageRateIcon rate (n0_8, n0_6))
      [parseFloat "1"; n0_8; parseFloat "0.79"; n0_6; parseFloat "0.59"; zero; NaN]
  = [":green_circle:"; ":green_circle:"; ":yellow_circle:"; ":yellow_circle:";
     ":red_circle:"; ":red_circle:"; ":red_circle:"].
Proof. vm_compute. reflexivity. Qed.

(** The conversions on some known values. *)
Example number_texts :
  map parseInt ["100"; " -5"; "12abc"; "abc"; "9007199254740993"]
  = [of_Z 100; of_Z (-5); of_Z 12; NaN; of_Z 9007199254740992] /\
  map (fun text => toString (parseFloat text))
      ["80.0"; ".5"; "1e21"; "0.0000001"; "-Infinity"; "n/a"; "1152921504606846976"]
  = ["80"; "0.5"; "1e+21"; "1e-7"; "-Infinity"; "NaN"; "1152921504606847000"] /\
  map (fun text => toFixed1 (parseFloat text)) ["0.25"; "1.45"; "99.95"; "-0.04"]
  = ["0.3"; "1.4"; "100.0"; "-0.0"] /\
  map (fun text => toString (round (parseFloat text))) ["2.5"; "-2.5"; "0.4"; "79.6"]
  = ["3"; "-2"; "0"; "80"].
Proof. repeat split; vm_compute; reflexivity. Qed.

(** The two readings of [100 * a / b] differ in the last place:
    the source computes [a / b * 100]. *)
Example rate_rounding_order :
  toString (mul (div (of_Z 1) (of_Z 3)) n100) = "33.33333333333333" /\
  toString (div (mul n100 (of_Z 1)) (of_Z 3)) = "33.333333333333336".
Proof. split; vm_compute; reflexivity. Qed.

Lemma changed_summary_recomputed_witness :
  exists report,
    parseReport scenarioDoc ["src/a/B.scala"] = Return report /\
    ReportSummary.statementsTotal (summary (changed report)) = of_Z 10 /\
    ReportSummary.statementRate (summary (changed report))
    = mul (div (of_Z 5) (of_Z 10)) n100.
Proof.
  eassert (H : parseReport scenarioDoc ["src/a/B.scala"] = Return _)
    by (vm_compute; reflexivity).
  eexists. split; [exact H|].
  pose proof (changed_summary_recomputed scenarioDoc ["src/a/B.scala"] _ H) as P.
  cbv zeta in P. destruct P as (_ & _ & _ & Hint).
  apply (Hint [10%Z] [5%Z]).
  - vm_compute. reflexivity.
  - vm_compute. reflexivity.
  - repeat constructor. lia.
  - repeat constructor. lia.
  - reflexivity.
  - reflexivity.
Defined.

(** C1, as stated, fails: with 23 statements invoked of 80 the changed
    rate is [23 / 80 * 100], which is 28.749999999999996 and is shown
    as 28.7%, where [100 * 23 / 80] is 28.75. *)
Lemma changed_rate_is_not_100_times_ratio :
  exists report,
    parseReport rateDoc ["src/a/B.scala"] = Return report /\
    map ReportClass.statementsInvoked (classes (changed report)) = [of_Z 23] /\
    map ReportClass.statementsTotal (classes (changed report)) = [of_Z 80] /\
    div (mul n100 (of_Z 23)) (of_Z 80) = parseFloat "28.75" /\
    ReportSummary.statementRate (summary (changed report))
    <> div (mul n100 (of_Z 23)) (of_Z 80) /\
    toString (ReportSummary.statementRate (summary (changed report)))
    = "28.749999999999996".
Proof.
  eexists. split; [vm_compute; reflexivity|].
  split; [vm_compute; reflexivity|]. split; [vm_compute; reflexivity|].
  split; [vm_compute; reflexivity|]. split; [vm_compute; discriminate|].
  vm_compute. reflexivity.
Qed.

Lemma abbreviate_inner_to_outer_witness :
  abbreviate "com.example.Foo" = abbreviateInnerToOuter "com.example.Foo".
Proof. apply abbreviate_inner_to_outer. reflexivity. Defined.

(** C6, as stated, fails: the source appends the segments of
    [com.example.Foo] from the inner one to the outer one, where the
    words of the specification give the outer one first. *)
Lemma abbreviate_not_outer_to_inner :
  abbreviate "com.example.Foo" = "Foo.example.com" /\
  abbreviateSpec "com.example.Foo" = "Foo.com.example" /\
  abbreviate "com.example.Foo" <> abbreviateSpec "com.example.Foo".
Proof. split; [reflexivity|]. split; [reflexivity|]. vm_compute. discriminate. Qed.

Lemma parseReport_throws_iff_no_summary_witness :
  exists report,
    parseReport summaryOnlyDoc [] = Return report /\ classes (all report) = [].
Proof.
  apply (proj2 (parseReport_throws_iff_no_summary summaryOnlyDoc [])).
  - apply Located_by_exec. vm_compute. discriminate.
  - apply not_Located_by_exec. vm_compute. reflexivity.
Defined.

Lemma render_sections_iff_finite_witness :
  renderCommentMarkdown onlyAllFinite = renderBucket "All files" (all onlyAllFinite) EmptyString.
Proof.
  apply (proj2 (proj2 (proj2 (render_sections_iff_finite onlyAllFinite))));
    reflexivity.
Defined.

Lemma changed_iff_path_contains_filename_witness :
  exists report,
    parseReport scenarioDoc ["src/a/B.scala"] = Return report /\
    classes (changed report)
      = filter (isChanged ["src/a/B.scala"]) (classes (all report)) /\
    forall classResult,
      In classResult (classes (changed report)) <->
      In classResult (classes (all report)) /\
      exists file before after,
        In file ["src/a/B.scala"] /\
        file = before ++ ReportClass.filename classResult ++ after.
Proof.
  eexists. split.
  - vm_compute. reflexivity.
  - apply (changed_iff_path_contains_filename scenarioDoc ["src/a/B.scala"]).
    vm_compute. reflexivity.
Defined.

Lemma upsert_protocol_witness :
  createOrUpdateIssueComment taggedOnSecondPage 7 "new report"
  = [ ListComments 7 1; ListComments 7 2;
      UpdateComment 13 ("new report" ++ nl ++ nl ++ commentTag) ] /\
  exists before page after,
    taggedOnSecondPage = (before ++ page :: after)%list /\
    pagesRead taggedOnSecondPage = S (length before) /\
    find isTagged (concat before) = None /\
    find isTagged page
    = Some {| id := 13; body := Some ("old report" ++ nl ++ nl ++ commentTag) |}.
Proof.
  split.
  - rewrite (proj1 (proj2 (upsert_protocol taggedOnSecondPage 7 "new report"))).
    reflexivity.
  - apply (proj1 (proj2 (proj2 (upsert_protocol taggedOnSecondPage 7 "new report")))).
    reflexivity.
Defined.

Lemma abbreviate_reverses_marks_bounds_witness :
  abbreviate "com.example.Foo" = "Foo.example.com" /\
  abbreviate (abbreviate "com.example.Foo") = "com.example.Foo" /\
  endsWith (abbreviate "com.example.Foo") "..." = truncated "com.example.Foo" /\
  String.length (abbreviate "com.example.Foo") <= 80.
Proof.
  destruct (abbreviate_reverses_marks_bounds "com.example.Foo" eq_refl)
    as (Hrev & Hdots & Hbound).
  destruct (Hrev ltac:(simpl; lia)) as [H1 H2].
  split; [exact H1 | split; [exact H2 | split; [exact Hdots | apply Hbound; simpl; lia]]].
Defined.

Lemma coverageRateIcon_step_function_witness :
  coverageRateIcon (parseFloat "0.7") (n0_8, n0_6) = ":yellow_circle:" /\
  coverageRateIcon (parseFloat "0.9") (n0_8, n0_6) <> ":red_circle:".
Proof.
  split.
  - apply (proj1 (proj2 (coverageRateIcon_step_function (parseFloat "0.7")))).
    split; reflexivity.
  - apply (proj2 (proj2 (proj2 (coverageRateIcon_step_function (parseFloat "0.7"))))
             (parseFloat "0.9")); reflexivity.
Defined.

Lemma zero_total_changed_section_omitted_witness :
  Located summaryRegex zeroTotalDoc /\
  exists report,
    parseReport zeroTotalDoc ["src/a/Empty.scala"] = Return report /\
    classes (changed report) <> [] /\
    isFinite (ReportSummary.statementRate (summary (changed report))) = false /\
    renderCommentMarkdown report = renderBucket "All files" (all report) EmptyString.
Proof.
  assert (Hs : Located summaryRegex zeroTotalDoc)
    by (apply Located_by_exec; vm_compute; discriminate).
  split; [exact Hs|].
  destruct (zero_total_changed_section_omitted zeroTotalDoc ["src/a/Empty.scala"] Hs)
    as (report & Hp & H).
  exists report. split; [exact Hp|].
  vm_compute in Hp. injection Hp as <-.
  destruct (H eq_refl) as [Hf Hr].
  split; [discriminate|]. split; [exact Hf | exact Hr].
Defined.

Lemma numeric_text_tolerance_witness :
  Located summaryRegex malformedDoc /\
  exists report,
    parseReport malformedDoc [] = Return report /\
    isFinite (ReportSummary.statementRate (summary (all report))) = false /\
    isNaN (ReportSummary.statementsTotal (summary (all report))) = false /\
    map ReportClass.statementsTotal (classes (all report)) = [NaN].
Proof.
  assert (Hs : Located summaryRegex malformedDoc)
    by (apply Located_by_exec; vm_compute; discriminate).
  split; [exact Hs|].
  destruct (numeric_text_tolerance malformedDoc [] Hs)
    as (count & invoked & rate & branch & rest & report
        & He & Hp & Hc & Hunit & Hrate & Hmal & _ & _ & _ & Hn).
  exists report. split; [exact Hp|].
  vm_compute in He. injection He as <- <- <- <- <-.
  split; [apply Hmal; reflexivity|]. split; [exact Hn|].
  rewrite Hc. vm_compute. reflexivity.
Defined.

(** C7, as stated, fails: abbreviating [a.B] gives [B.a] and
    abbreviating again gives [a.B] back; [...a] is not truncated and
    yet ends with three dots; a single segment of 96 characters is
    kept whole. *)
Lemma abbreviate_not_idempotent_nor_bounded :
  (String.length "a.B" < 77 /\ abbreviate "a.B" = "B.a" /\
   abbreviate (abbreviate "a.B") <> abbreviate "a.B") /\
  (endsWith (abbreviate "...a") "..." = true /\ truncated "...a" = false) /\
  (80 < String.length (abbreviate longName)).
Proof.
  repeat split; try (simpl; lia); try reflexivity.
  vm_compute. discriminate.
Qed.

(** C9, as stated, fails: a document-level rate that is no number
    does not make the run fail; the report is returned with a NaN
    rate, and nothing is rendered for the all bucket. *)
Lemma malformed_rate_still_parses :
  noDigit "n/a" = true /\
  exists report,
    parseReport malformedDoc [] = Return report /\
    isNaN (ReportSummary.statementRate (summary (all report))) = true /\
    renderCommentMarkdown report = EmptyString.
Proof.
  split; [reflexivity|]. eexists. split; [|split].
  - vm_compute. reflexivity.
  - reflexivity.
  - reflexivity.
Qed.

(** * Further properties of the source *)

(** ** The parser and the aggregator *)

Lemma parseReport_inv xml changedFiles report :
  parseReport xml changedFiles = Return report ->
  exists summaryMatch rest,
    exec summaryRegex xml = Some (summaryMatch, rest) /\
    all report
    = {| summary := ReportSummary.mk (parseFloat (nth 2 summaryMatch EmptyString))
                                     (parseInt (nth 0 summaryMatch EmptyString));
         classes := map classOfMatch (matchAll classRegex xml) |} /\
    classes (changed report)
    = filter (isChanged changedFiles) (map classOfMatch (matchAll classRegex xml)) /\
    summary (changed report)
    = ReportSummary.mk
        (mul (div (sumOf ReportClass.statementsInvoked (classes (changed report)))
                  (sumOf ReportClass.statementsTotal (classes (changed report))))
             n100)
        (sumOf ReportClass.statementsTotal (classes (changed report))).
Proof.
  unfold parseReport. destruct (exec summaryRegex xml) as [[m r]|]; [|discriminate].
  intros [= <-]. exists m, r. repeat split.
Qed.

Lemma render_without_changed report :
  isFinite (ReportSummary.statementRate (summary (changed report))) = false ->
  renderCommentMarkdown report
  = if isFinite (ReportSummary.statementRate (summary (all report)))
    then renderBucket "All files" (all report) EmptyString else EmptyString.
Proof. intros H. unfold renderCommentMarkdown. now rewrite H. Qed.

(** X1: the list of changed files has no part in whether parsing
    succeeds nor in the all bucket, and a longer list only adds records
    to the changed bucket. *)
Theorem changed_files_only_select xml changedFiles changedFiles' report :
  parseReport xml changedFiles = Return report ->
  exists report',
    parseReport xml changedFiles' = Return report' /\
    all report' = all report /\
    (incl changedFiles changedFiles' ->
     incl (classes (changed report)) (classes (changed report'))).
Proof.
  intros H.
  destruct (parseReport xml changedFiles') as [report'|msg] eqn:H'.
  - exists report'. split; [reflexivity|].
    pose proof (parseReport_inv _ _ _ H) as (m & r & He & Ha & Hc & _).
    pose proof (parseReport_inv _ _ _ H') as (m' & r' & He' & Ha' & Hc' & _).
    rewrite He in He'. injection He' as <- <-.
    split; [congruence|]. intros Hincl c. rewrite Hc, Hc', !filter_In.
    intros [Hin Hch]. split; [exact Hin|].
    assert (Hne : ReportClass.filename c <> EmptyString).
    { apply (parsed_filename_nonempty xml changedFiles report); [exact H|].
      rewrite Ha. exact Hin. }
    apply isChanged_spec in Hch; [|exact Hne]. apply isChanged_spec; [exact Hne|].
    destruct Hch as (file & b & a & Hf & E). exists file, b, a. auto.
  - exfalso. revert H H'. unfold parseReport.
    destruct (exec summaryRegex xml) as [[m r]|]; discriminate.
Qed.

Lemma filter_nothing {A} (f : A -> bool) (l : list A) :
  (forall a, In a l -> f a = false) -> filter f l = [].
Proof.
  induction l as [|a l IH]; intros H; [reflexivity|]. simpl.
  rewrite (H a) by (simpl; auto). apply IH. intros b Hb. apply H. simpl. auto.
Qed.

(** X2: when no changed path contains the filename of any unit, as
    with an empty list of changed files, the changed bucket has no
    record, a total of zero and a NaN rate, and the Changed files
    section is left out. *)
Theorem nothing_changed_nothing_rendered xml changedFiles report :
  parseReport xml changedFiles = Return report ->
  (forall file classResult,
     In file changedFiles -> In classResult (classes (all report)) ->
     includes file (ReportClass.filename classResult) = false) ->
  classes (changed report) = [] /\
  ReportSummary.statementsTotal (summary (changed report)) = zero /\
  ReportSummary.statementRate (summary (changed report)) = NaN /\
  renderCommentMarkdown report
  = if isFinite (ReportSummary.statementRate (summary (all report)))
    then renderBucket "All files" (all report) EmptyString else EmptyString.
Proof.
  intros H Hno.
  pose proof (parseReport_inv _ _ _ H) as (m & r & He & Ha & Hc & Hs).
  assert (E : classes (changed report) = []).
  { rewrite Hc. apply filter_nothing. intros c Hin.
    unfold isChanged. destruct (find _ changedFiles) as [file|] eqn:Hfind; [|reflexivity].
    apply find_some in Hfind. destruct Hfind as [Hf Hinc].
    rewrite (Hno file c Hf) in Hinc; [discriminate|]. now rewrite Ha. }
  assert (Hsum : summary (changed report) = ReportSummary.mk NaN zero).
  { rewrite Hs, E. reflexivity. }
  split; [exact E|]. rewrite Hsum. cbn [ReportSummary.statementsTotal ReportSummary.statementRate].
  split; [reflexivity|]. split; [reflexivity|].
  apply render_without_changed. now rewrite Hsum.
Qed.

Lemma free_of_all c s :
  (forall d, In d (list_ascii_of_string s) -> negb (Ascii.eqb d c) = true) ->
  free_of c s = true.
Proof.
  induction s as [|d s IH]; intros H; [reflexivity|]. simpl.
  rewrite (H d) by (simpl; auto). apply IH. intros e He. apply H. simpl. auto.
Qed.

Lemma classRegex_fields t caps rest :
  Matches classRegex t caps rest ->
  exists name filename count invoked,
    caps = [name; filename; count; invoked] /\
    Forall (fun text => text <> EmptyString /\ free_of dquote text = true)
           [name; filename; count; invoked].
Proof.
  unfold classRegex. intros H. invert_matches.
  do 4 eexists. split; [reflexivity|].
  repeat constructor; auto using free_of_all.
Qed.

(** X3: the name and the filename of every parsed record are
    non-empty and hold no double quote. *)
Theorem parsed_fields_plain xml changedFiles report classResult :
  parseReport xml changedFiles = Return report ->
  In classResult (classes (all report)) ->
  ReportClass.name classResult <> EmptyString /\
  free_of dquote (ReportClass.name classResult) = true /\
  ReportClass.filename classResult <> EmptyString /\
  free_of dquote (ReportClass.filename classResult) = true.
Proof.
  intros H. pose proof (parseReport_inv _ _ _ H) as (m & r & _ & Ha & _).
  rewrite Ha. simpl. rewrite in_map_iff. intros (caps & <- & Hin).
  apply matchAll_from_In in Hin. destruct Hin as (t & rest & Hm).
  apply classRegex_fields in Hm. destruct Hm as (n & f & c & i & -> & Hall).
  inversion Hall as [|? ? [Hn1 Hn2] Hall1]; subst.
  inversion Hall1 as [|? ? [Hf1 Hf2] _]; subst.
  simpl. auto.
Qed.

Lemma add_NaN_r x : add x NaN = NaN.
Proof. destruct x; reflexivity. Qed.

Lemma sumOf_from_NaN (field : ReportClass.t -> number) (cs : list ReportClass.t) :
  forall acc, isNaN acc = true ->
  isNaN (fold_left (fun acc classResult => add acc (field classResult)) cs acc) = true.
Proof.
  induction cs as [|c cs IH]; intros acc H; [exact H|]. simpl. apply IH.
  destruct acc; try discriminate. reflexivity.
Qed.

Lemma sumOf_poisoned (field : ReportClass.t -> number) cs classResult :
  In classResult cs -> isNaN (field classResult) = true ->
  isNaN (sumOf field cs) = true.
Proof.
  unfold sumOf. generalize zero.
  induction cs as [|c cs IH]; intros acc Hin Hn; [destruct Hin|]. simpl.
  destruct Hin as [->|Hin]; [|now apply IH].
  apply sumOf_from_NaN. destruct (field classResult); try discriminate.
  now rewrite add_NaN_r.
Qed.

(** X4: one record of the changed bucket with a NaN count makes the
    changed rate NaN, so that the Changed files section is left out
    whatever the other records are. *)
Theorem NaN_count_hides_changed xml changedFiles report classResult :
  parseReport xml changedFiles = Return report ->
  In classResult (classes (changed report)) ->
  isNaN (ReportClass.statementsTotal classResult) = true \/
  isNaN (ReportClass.statementsInvoked classResult) = true ->
  isNaN (ReportSummary.statementRate (summary (changed report))) = true /\
  renderCommentMarkdown report
  = if isFinite (ReportSummary.statementRate (summary (all report)))
    then renderBucket "All files" (all report) EmptyString else EmptyString.
Proof.
  intros H Hin Hn.
  pose proof (parseReport_inv _ _ _ H) as (m & r & _ & _ & _ & Hs).
  assert (E : isNaN (ReportSummary.statementRate (summary (changed report))) = true).
  { rewrite Hs. cbn [ReportSummary.statementRate].
    destruct Hn as [Hn|Hn].
    - pose proof (sumOf_poisoned _ _ _ Hin Hn) as Ht.
      destruct (sumOf ReportClass.statementsTotal _); try discriminate.
      destruct (sumOf ReportClass.statementsInvoked _); reflexivity.
    - pose proof (sumOf_poisoned _ _ _ Hin Hn) as Hi.
      destruct (sumOf ReportClass.statementsInvoked _); try discriminate.
      reflexivity. }
  split; [exact E|]. apply render_without_changed.
  destruct (ReportSummary.statementRate (summary (changed report))); try discriminate.
  reflexivity.
Qed.

(** ** The renderer *)

Lemma renderRows_fold cs :
  fold_left renderClass cs EmptyString = renderRows cs.
Proof.
  induction cs as [|c cs IH]; [reflexivity|].
  cbn [fold_left]. rewrite renderClass_rows, IH. reflexivity.
Qed.

Lemma renderRows_app cs1 cs2 :
  renderRows (cs1 ++ cs2) = renderRows cs1 ++ renderRows cs2.
Proof.
  induction cs1 as [|c cs1 IH]; [reflexivity|].
  unfold renderRows in *. cbn [app fold_right]. now rewrite IH, append_assoc.
Qed.

Lemma renderBucket_decomposed title bucket :
  renderBucket title bucket EmptyString
  = bucketHeader title bucket ++ renderRows (classes bucket)
    ++ nl ++ "</details>" ++ nl.
Proof.
  unfold renderBucket, bucketHeader. cbn zeta.
  rewrite renderClass_rows, renderRows_fold.
  change (EmptyString ++ "<details>" ++ nl) with ("<details>" ++ nl).
  rewrite !append_assoc. reflexivity.
Qed.

(** X5: a section is its header, then one table row per record in the
    order of the bucket, each rendered on its own, then the closing
    lines; the rows of a concatenation are the rows of its parts. *)
Theorem renderBucket_rows title bucket :
  renderBucket title bucket EmptyString
  = bucketHeader title bucket ++ renderRows (classes bucket)
    ++ nl ++ "</details>" ++ nl /\
  (forall cs1 cs2, renderRows (cs1 ++ cs2) = renderRows cs1 ++ renderRows cs2) /\
  (forall classResult,
     exists cells,
       renderClass EmptyString classResult
       = "| `" ++ abbreviate (ReportClass.name classResult) ++ "` | " ++ cells ++ " |" ++ nl).
Proof.
  split; [|split].
  - apply renderBucket_decomposed.
  - apply renderRows_app.
  - intros c. unfold renderClass. cbn zeta.
    match goal with
    | |- context [?icon ++ " " ++ ?text ++ " |" ++ nl] => exists (icon ++ " " ++ text)
    end.
    rewrite !append_assoc. reflexivity.
Qed.

Lemma renderBucket_closed title bucket :
  startsWith (renderBucket title bucket EmptyString) ("<details>" ++ nl) = true /\
  endsWith (renderBucket title bucket EmptyString) ("</details>" ++ nl) = true.
Proof.
  split.
  - destruct (renderBucket_header title bucket) as [rest ->].
    apply startsWith_spec. eexists. rewrite <- append_assoc. reflexivity.
  - rewrite renderBucket_decomposed. apply endsWith_spec.
    exists (bucketHeader title bucket ++ renderRows (classes bucket) ++ nl).
    rewrite !append_assoc. reflexivity.
Qed.

Lemma render_split report :
  renderCommentMarkdown report
  = (if isFinite (ReportSummary.statementRate (summary (all report)))
     then renderBucket "All files" (all report) EmptyString else EmptyString)
    ++ (if isFinite (ReportSummary.statementRate (summary (changed report)))
        then renderBucket "Changed files" (changed report) EmptyString else EmptyString).
Proof.
  unfold renderCommentMarkdown.
  destruct (isFinite (ReportSummary.statementRate (summary (all report)))),
           (isFinite (ReportSummary.statementRate (summary (changed report)))); cbn zeta.
  - apply renderBucket_onto.
  - now rewrite append_nil_r.
  - reflexivity.
  - reflexivity.
Qed.

Lemma startsWith_append_l a b p : startsWith a p = true -> startsWith (a ++ b) p = true.
Proof.
  rewrite !startsWith_spec. intros [t ->]. exists (t ++ b). now rewrite append_assoc.
Qed.

Lemma endsWith_append_r a b p : endsWith b p = true -> endsWith (a ++ b) p = true.
Proof.
  rewrite !endsWith_spec. intros [t ->]. exists (a ++ t). now rewrite append_assoc.
Qed.

Lemma renderBucket_not_empty title bucket :
  renderBucket title bucket EmptyString <> EmptyString.
Proof. destruct (renderBucket_header title bucket) as [rest ->]. discriminate. Qed.

Lemma append_empty a b : a ++ b = EmptyString -> a = EmptyString /\ b = EmptyString.
Proof. destruct a; simpl; [auto | discriminate]. Qed.

(** X6: the output is empty exactly when neither rate is finite, and
    otherwise it opens with a [<details>] line and closes with a
    [</details>] line. *)
Theorem render_output_closed report :
  let out := renderCommentMarkdown report in
  (out = EmptyString <->
   isFinite (ReportSummary.statementRate (summary (all report))) = false /\
   isFinite (ReportSummary.statementRate (summary (changed report))) = false) /\
  (out <> EmptyString ->
   startsWith out ("<details>" ++ nl) = true /\
   endsWith out ("</details>" ++ nl) = true).
Proof.
  cbn zeta. rewrite render_split.
  pose proof (renderBucket_closed "All files" (all report)) as [Sa Ea].
  pose proof (renderBucket_closed "Changed files" (changed report)) as [Sc Ec].
  pose proof (renderBucket_not_empty "All files" (all report)) as Na.
  pose proof (renderBucket_not_empty "Changed files" (changed report)) as Nc.
  destruct (isFinite (ReportSummary.statementRate (summary (all report)))),
           (isFinite (ReportSummary.statementRate (summary (changed report)))).
  - split.
    + split; [intros H; apply append_empty in H; tauto | intros [H _]; discriminate].
    + intros _. split; [now apply startsWith_append_l | now apply endsWith_append_r].
  - rewrite append_nil_r. split.
    + split; [tauto | intros [H _]; discriminate].
    + auto.
  - cbn [append]. split.
    + split; [tauto | intros [_ H]; discriminate].
    + auto.
  - cbn [append]. split; [tauto | congruence].
Qed.

Lemma mul_infinity_100 s : mul (S754_infinity s) n100 = S754_infinity s.
Proof. destruct s; reflexivity. Qed.

Lemma toFixed1_infinity s :
  toFixed1 (S754_infinity s) = if s then "-Infinity" else "Infinity".
Proof. reflexivity. Qed.

(** X7: the row of a unit whose statement count is a zero of either
    sign: with a zero count of invoked statements the rate is NaN,
    shown as [NaN%] with the red icon; with a non-zero finite count it
    is an infinity whose sign is the product of the two signs, shown
    as [Infinity%] with the green icon when they agree and as
    [-Infinity%] with the red icon when they differ. *)
Theorem zero_statement_row result classResult st :
  ReportClass.statementsTotal classResult = S754_zero st ->
  (forall si,
     ReportClass.statementsInvoked classResult = S754_zero si ->
     renderClass result classResult
     = result ++ "| `" ++ abbreviate (ReportClass.name classResult)
       ++ "` | :red_circle: NaN% (0/0) |" ++ nl) /\
  (forall si m e,
     ReportClass.statementsInvoked classResult = S754_finite si m e ->
     renderClass result classResult
     = result ++ "| `" ++ abbreviate (ReportClass.name classResult)
       ++ (if xorb si st then "` | :red_circle: -Infinity% ("
           else "` | :green_circle: Infinity% (")
       ++ toString (S754_finite si m e) ++ "/0) |" ++ nl).
Proof.
  intros Ht. split.
  - intros si Hi. unfold renderClass. rewrite Ht, Hi. destruct st, si; reflexivity.
  - intros si m e Hi. unfold renderClass. rewrite Ht, Hi.
    change (div (S754_finite si m e) (S754_zero st)) with (S754_infinity (xorb si st)).
    rewrite mul_infinity_100, toFixed1_infinity.
    change (toString (S754_zero st)) with "0".
    destruct (xorb si st).
    + change (coverageRateIcon (S754_infinity true) (n0_8, n0_6)) with ":red_circle:".
      cbn zeta. cbn [append]. rewrite !append_assoc. reflexivity.
    + change (coverageRateIcon (S754_infinity false) (n0_8, n0_6)) with ":green_circle:".
      cbn zeta. cbn [append]. rewrite !append_assoc. reflexivity.
Qed.

(** ** The class-name abbreviation, on every name *)

Lemma abbreviateStep_extends acc next :
  exists suffix, abbreviateStep acc next = acc ++ suffix.
Proof.
  unfold abbreviateStep. destruct (endsWith acc "...").
  - exists EmptyString. now rewrite append_nil_r.
  - destruct (_ <? _)%nat; eauto.
Qed.

Lemma abbreviate_fold_extends remaining :
  forall acc, exists suffix, fold_left abbreviateStep remaining acc = acc ++ suffix.
Proof.
  induction remaining as [|next remaining IH]; intros acc.
  - exists EmptyString. now rewrite append_nil_r.
  - simpl. destruct (abbreviateStep_extends acc next) as [s1 ->].
    destruct (IH (acc ++ s1)) as [s2 ->]. exists (s1 ++ s2). apply append_assoc.
Qed.

Lemma abbreviate_bound_from limit remaining :
  77 <= limit ->
  forall acc,
    String.length acc <= limit \/
    (endsWith acc "..." = true /\ String.length acc <= limit + 3) ->
    String.length (fold_left abbreviateStep remaining acc) <= limit + 3.
Proof.
  intros Hl. induction remaining as [|next remaining IH]; intros acc Hinv.
  - simpl. lia.
  - simpl. apply IH. unfold abbreviateStep.
    destruct (endsWith acc "...") eqn:E; [right; split; [exact E | lia]|].
    destruct Hinv as [Hlen|[Hd _]]; [|congruence].
    destruct (80 - 3 <? String.length (acc ++ "." ++ next))%nat eqn:L.
    + right. split; [apply endsWith_append|]. rewrite length_append. simpl. lia.
    + left. apply Nat.ltb_ge in L. change (80 - 3) with 77 in L. lia.
Qed.

(** X8: on every name, the abbreviation starts with the innermost
    segment in full, is at most three characters longer than the
    larger of that segment's length and 77, and leaves a name without
    dots as it is. *)
Theorem abbreviate_keeps_innermost name :
  startsWith (abbreviate name) (innermost name) = true /\
  String.length (abbreviate name) <= Nat.max (String.length (innermost name)) 77 + 3 /\
  (free_of "." name = true -> abbreviate name = name).
Proof.
  split; [|split].
  - unfold abbreviate, innermost.
    destruct (abbreviate_fold_extends (tl (rev (split "." name)))
                (hd EmptyString (rev (split "." name)))) as [suffix ->].
    apply startsWith_spec. eauto.
  - unfold abbreviate, innermost. apply abbreviate_bound_from; lia.
  - intros H. unfold abbreviate. now rewrite (split_free_one "." name H).
Qed.

(** ** The upsert protocol across runs *)

Lemma isTagged_published cid text :
  isTagged {| id := cid; body := Some (text ++ nl ++ nl ++ commentTag) |} = true.
Proof.
  unfold isTagged. cbn [body]. apply includes_spec.
  exists (text ++ nl ++ nl), EmptyString.
  now rewrite append_nil_r, !append_assoc.
Qed.

Lemma find_finds {A} (f : A -> bool) (l : list A) (a : A) :
  In a l -> f a = true -> exists b, find f l = Some b.
Proof.
  intros Hin Hf. destruct (find f l) as [b|] eqn:E; [eauto|].
  rewrite (find_none _ _ E a Hin) in Hf. discriminate.
Qed.

(** X9: a comment written by one run is recognised by the next one:
    when the listing holds a comment whose body was published by this
    function, the next call updates a tagged comment and creates none;
    and it updates that very comment when every tagged comment of the
    listing carries its id. *)
Theorem published_comment_is_updated pages issueNumber text text' cid :
  In {| id := cid; body := Some (text ++ nl ++ nl ++ commentTag) |} (concat pages) ->
  exists comment,
    In comment (concat pages) /\ isTagged comment = true /\
    createOrUpdateIssueComment pages issueNumber text'
    = (map (ListComments issueNumber) (seq 1 (pagesRead pages))
       ++ [UpdateComment (id comment) (text' ++ nl ++ nl ++ commentTag)])%list /\
    ((forall other, In other (concat pages) -> isTagged other = true -> id other = cid) ->
     id comment = cid).
Proof.
  intros Hin.
  destruct (find_finds isTagged _ _ Hin (isTagged_published cid text)) as [comment Hf].
  pose proof (find_some _ _ Hf) as [Hc Ht].
  exists comment. split; [exact Hc|]. split; [exact Ht|]. split.
  - unfold createOrUpdateIssueComment. rewrite findExisting_spec, Hf. reflexivity.
  - intros Hall. now apply Hall.
Qed.

(** ** The icon mapping, for any thresholds *)

(** X10: whatever the two thresholds are, the icon is one of the
    three, a NaN rate is red, and a larger rate never gets a lower
    icon. *)
Theorem coverageRateIcon_any_thresholds rate rate' thresholds :
  In (coverageRateIcon rate thresholds)
     [":green_circle:"; ":yellow_circle:"; ":red_circle:"] /\
  (isNaN rate = true -> coverageRateIcon rate thresholds = ":red_circle:") /\
  (SFleb rate rate' = true ->
   iconRank (coverageRateIcon rate thresholds)
   <= iconRank (coverageRateIcon rate' thresholds)).
Proof.
  unfold coverageRateIcon. split; [|split].
  - destruct (ge rate (fst thresholds)); [simpl; auto|].
    destruct (ge rate (snd thresholds)); simpl; auto.
  - intros H. destruct rate; try discriminate. now rewrite !ge_NaN.
  - intros H.
    destruct (ge rate (fst thresholds)) eqn:H0.
    + rewrite (ge_mono _ _ _ H H0). apply le_n.
    + destruct (ge rate (snd thresholds)) eqn:H1.
      * rewrite (ge_mono _ _ _ H H1).
        destruct (ge rate' (fst thresholds)); vm_compute; lia.
      * apply Nat.le_0_l.
Qed.

(** ** The inputs of [run] *)

Lemma firstTruthy_input input env default :
  input <> EmptyString -> firstTruthy input env default = input.
Proof.
  intros H. unfold firstTruthy, truthy.
  apply String.eqb_neq in H. now rewrite H.
Qed.

(** X11: the pull request number: a non-empty input hides the
    environment variable; a text without any digit, or one that reads
    as zero, is passed over for the number of the event payload; and a
    number taken from the text is neither NaN nor zero. *)
Theorem pullRequestNumber_fallback input env payloadNumber :
  let text := firstTruthy input env EmptyString in
  (input <> EmptyString -> text = input) /\
  (noDigit text = true -> pullRequestNumber input env payloadNumber = payloadNumber) /\
  (isZero (parseInt text) = true ->
   pullRequestNumber input env payloadNumber = payloadNumber) /\
  (forall n, pullRequestNumber input env payloadNumber = Some n ->
             payloadNumber = Some n \/
             (n = parseInt text /\ isNaN n = false /\ isZero n = false)).
Proof.
  cbn zeta. split; [|split; [|split]].
  - apply firstTruthy_input.
  - intros H. unfold pullRequestNumber. now rewrite (parseInt_noDigit _ H).
  - intros H. unfold pullRequestNumber, truthyNumber.
    rewrite H, orb_true_r. reflexivity.
  - intros n. unfold pullRequestNumber, truthyNumber.
    destruct (isNaN (parseInt _)) eqn:E1; [simpl; auto|].
    destruct (isZero (parseInt _)) eqn:E2; [simpl; auto|].
    simpl. intros [= <-]. right. auto.
Qed.

(** X12: the repository read from [GITHUB_REPOSITORY]: the text
    [owner/repo] gives back its two parts, whatever follows a second
    slash is dropped, and an unset variable gives two empty strings. *)
Theorem repositoryFromEnv_parts owner repo rest :
  free_of "/" owner = true -> free_of "/" repo = true ->
  repositoryFromEnv (Some (owner ++ "/" ++ repo)) = (owner, repo) /\
  repositoryFromEnv (Some (owner ++ "/" ++ repo ++ "/" ++ rest)) = (owner, repo) /\
  repositoryFromEnv (Some owner) = (owner, EmptyString) /\
  repositoryFromEnv None = (EmptyString, EmptyString).
Proof.
  intros Ho Hr. unfold repositoryFromEnv. repeat split.
  - change (owner ++ "/" ++ repo) with (owner ++ String "/" repo).
    now rewrite (split_free_append "/" owner repo Ho), (split_free_one "/" repo Hr).
  - change (owner ++ "/" ++ repo ++ "/" ++ rest)
      with (owner ++ String "/" (repo ++ String "/" rest)).
    now rewrite (split_free_append "/" owner _ Ho), (split_free_append "/" repo _ Hr).
  - now rewrite (split_free_one "/" owner Ho).
Qed.

(** ** Reading back a well-formed document *)

Lemma strip_app text s : strip text (text ++ s) = Some s.
Proof. now apply strip_spec. Qed.

Lemma match_lit text p s :
  match_here (Lit text :: p) (text ++ s) = match_here p s.
Proof. simpl. now rewrite strip_app. Qed.

Lemma group_here_maximal cls k g d t caps rest :
  g <> EmptyString ->
  (forall c, In c (list_ascii_of_string g) -> cls c = true) ->
  cls d = false ->
  k (String d t) = Some (caps, rest) ->
  forall taken,
    group_here cls k taken (g ++ String d t) = Some ((taken ++ g) :: caps, rest).
Proof.
  intros Hne Hall Hd Hk. induction g as [|c g IH]; [congruence|]. intros taken.
  simpl. rewrite (Hall c) by (simpl; auto).
  destruct g as [|c' g].
  - simpl. rewrite Hd, Hk. reflexivity.
  - rewrite IH; [|discriminate|intros x Hx; apply Hall; simpl; auto].
    now rewrite append_assoc.
Qed.

Lemma match_group cls p g d t caps rest :
  g <> EmptyString ->
  (forall c, In c (list_ascii_of_string g) -> cls c = true) ->
  cls d = false ->
  match_here p (String d t) = Some (caps, rest) ->
  match_here (Group cls :: p) (g ++ String d t) = Some (g :: caps, rest).
Proof.
  intros Hne Hall Hd Hk. simpl.
  now rewrite (group_here_maximal cls _ g d t caps rest Hne Hall Hd Hk).
Qed.

Lemma free_of_In c s :
  free_of c s = true -> forall d, In d (list_ascii_of_string s) -> negb (Ascii.eqb d c) = true.
Proof.
  induction s as [|e s IH]; simpl; [tauto|].
  rewrite andb_true_iff. intros [He Hs] d [<-|Hd]; auto.
Qed.

Lemma plainValue_notQuote v :
  plainValue v -> forall c, In c (list_ascii_of_string v) -> notQuote c = true.
Proof. intros [_ H]. exact (free_of_In _ _ H). Qed.

(** The text of the four attributes of a per-unit element. *)
Lemma classTag_shape name filename count invoked rest :
  classTag name filename count invoked ++ rest
  = "<class "
    ++ (("name=" ++ q) ++ name ++ (q ++ " filename=" ++ q) ++ filename
        ++ (q ++ " statement-count=" ++ q) ++ count
        ++ (q ++ " statements-invoked=" ++ q) ++ invoked ++ q ++ ">" ++ rest).
Proof. unfold classTag, attr. rewrite !append_assoc. reflexivity. Qed.

Lemma match_lit_eq text p s s' :
  s = text ++ s' -> match_here (Lit text :: p) s = match_here p s'.
Proof. intros ->. apply match_lit. Qed.

Lemma class_attributes_match name filename count invoked rest :
  plainValue name -> plainValue filename -> plainValue count -> plainValue invoked ->
  match_here classRegex
    (("name=" ++ q) ++ name ++ (q ++ " filename=" ++ q) ++ filename
     ++ (q ++ " statement-count=" ++ q) ++ count
     ++ (q ++ " statements-invoked=" ++ q) ++ invoked ++ q ++ rest)
  = Some ([name; filename; count; invoked], rest).
Proof.
  intros Hn Hf Hc Hi. unfold classRegex.
  rewrite match_lit.
  apply match_group; [apply Hn | now apply plainValue_notQuote | reflexivity|].
  erewrite match_lit_eq by reflexivity.
  apply match_group; [apply Hf | now apply plainValue_notQuote | reflexivity|].
  erewrite match_lit_eq by reflexivity.
  apply match_group; [apply Hc | now apply plainValue_notQuote | reflexivity|].
  erewrite match_lit_eq by reflexivity.
  apply match_group; [apply Hi | now apply plainValue_notQuote | reflexivity|].
  erewrite match_lit_eq by reflexivity. reflexivity.
Qed.

Lemma noNameStart_no_match s :
  noNameStart s = true -> s <> EmptyString ->
  forall t, match_here classRegex (s ++ t) = None.
Proof.
  destruct s as [|c s]; [congruence|]. intros H _ t. simpl in H.
  apply andb_true_iff in H. destruct H as [H _].
  unfold classRegex, match_here. cbn [strip append q].
  destruct (Ascii.eqb_spec "n" c) as [<-|Hc]; [|reflexivity].
  simpl in H. destruct s as [|d s]; [discriminate|].
  apply negb_true_iff in H. cbn [strip append].
  rewrite Ascii.eqb_sym, H. reflexivity.
Qed.

Lemma noNameStart_tail c s : noNameStart (String c s) = true -> noNameStart s = true.
Proof. simpl. rewrite andb_true_iff. tauto. Qed.

Lemma skip_noNameStart s :
  noNameStart s = true ->
  forall t, matchAll_from classRegex 0 (s ++ t) = matchAll_from classRegex 0 t.
Proof.
  induction s as [|c s IH]; intros H t; [reflexivity|].
  change (String c s ++ t) with (String c (s ++ t)).
  cbn [matchAll_from].
  change (String c (s ++ t)) with (String c s ++ t).
  rewrite (noNameStart_no_match _ H) by discriminate.
  apply IH. eapply noNameStart_tail; eauto.
Qed.

Lemma noNameStart_app a b :
  noNameStart a = true -> noNameStart b = true -> noNameStart (a ++ b) = true.
Proof.
  induction a as [|c a IH]; intros Ha Hb; [exact Hb|].
  pose proof (noNameStart_tail _ _ Ha) as Ha'.
  change (String c a ++ b) with (String c (a ++ b)).
  cbn [noNameStart]. rewrite (IH Ha' Hb), andb_true_r.
  simpl in Ha. apply andb_true_iff in Ha. destruct Ha as [Ha _].
  destruct (Ascii.eqb c "n"); [|reflexivity].
  destruct a as [|d a]; [discriminate|]. exact Ha.
Qed.

Lemma free_of_n_noNameStart s : free_of "n" s = true -> noNameStart s = true.
Proof.
  induction s as [|c s IH]; [reflexivity|]. simpl.
  rewrite andb_true_iff, negb_true_iff. intros [Hc Hs]. now rewrite Hc, IH.
Qed.

Lemma skip_matched p a :
  forall t, matchAll_from p (String.length a) (a ++ t) = matchAll_from p 0 t.
Proof. induction a as [|c a IH]; intros t; [reflexivity|]. simpl. apply IH. Qed.

Lemma matchAll_step p s m rest caps :
  s = m ++ rest -> m <> EmptyString ->
  match_here p s = Some (caps, rest) ->
  matchAll_from p 0 s = caps :: matchAll_from p 0 rest.
Proof.
  intros -> Hm H. destruct m as [|c m]; [congruence|].
  change (String c m ++ rest) with (String c (m ++ rest)) in *.
  cbn [matchAll_from]. rewrite H. f_equal.
  replace (Nat.pred (String.length (String c (m ++ rest)) - String.length rest))
    with (String.length m)
    by (cbn [String.length]; rewrite length_append; lia).
  apply skip_matched.
Qed.

Lemma matchAll_classTags units :
  Forall (fun '(name, filename, count, invoked) =>
            plainValue name /\ plainValue filename /\
            plainValue count /\ plainValue invoked) units ->
  matchAll_from classRegex 0 (classTags units)
  = map (fun '(name, filename, count, invoked) => [name; filename; count; invoked]) units.
Proof.
  induction units as [|[[[name filename] count] invoked] units IH]; intros Hall.
  - reflexivity.
  - inversion Hall as [|? ? Hunit Hall']; subst.
    cbn in Hunit. destruct Hunit as (Hn & Hf & Hc & Hi).
    cbn [classTags fold_right map].
    change (fold_right _ EmptyString units) with (classTags units).
    rewrite classTag_shape.
    rewrite (skip_noNameStart "<class " eq_refl).
    pose proof (class_attributes_match name filename count invoked
                  (">" ++ classTags units) Hn Hf Hc Hi) as Hm.
    match goal with
    | |- matchAll_from _ 0 ?s = _ =>
        rewrite (matchAll_step classRegex s
                   (("name=" ++ q) ++ name ++ (q ++ " filename=" ++ q) ++ filename
                    ++ (q ++ " statement-count=" ++ q) ++ count
                    ++ (q ++ " statements-invoked=" ++ q) ++ invoked ++ q)
                   (">" ++ classTags units) [name; filename; count; invoked]);
        [ | rewrite !append_assoc; reflexivity | discriminate | exact Hm ]
    end.
    f_equal. rewrite (skip_noNameStart ">" eq_refl). now apply IH.
Qed.

Lemma match_one (cls : ascii -> bool) p c s :
  cls c = true -> match_here (One cls :: p) (String c s) = match_here p s.
Proof. intros H. simpl. now rewrite H. Qed.

Lemma summaryTag_shape count invoked rate branch rest :
  summaryTag count invoked rate branch ++ rest
  = "<scoverage "
    ++ (("statement-count=" ++ q) ++ count
        ++ (q ++ " statements-invoked=" ++ q) ++ invoked
        ++ (q ++ " statement-rate=" ++ q) ++ rate
        ++ (q ++ " branch-rate=" ++ q) ++ branch
        ++ (q ++ " version=" ++ q ++ "1") ++ String "." (("0" ++ q) ++ ">" ++ rest)).
Proof. unfold summaryTag, attr. rewrite !append_assoc. reflexivity. Qed.

Lemma summary_attributes_match count invoked rate branch rest :
  count <> EmptyString ->
  (forall c, In c (list_ascii_of_string count) -> isDigit c = true) ->
  plainValue invoked -> plainValue rate -> plainValue branch ->
  match_here summaryRegex
    (("statement-count=" ++ q) ++ count
     ++ (q ++ " statements-invoked=" ++ q) ++ invoked
     ++ (q ++ " statement-rate=" ++ q) ++ rate
     ++ (q ++ " branch-rate=" ++ q) ++ branch
     ++ (q ++ " version=" ++ q ++ "1") ++ String "." (("0" ++ q) ++ rest))
  = Some ([count; invoked; rate; branch], rest).
Proof.
  intros Hc Hd Hi Hr Hb. unfold summaryRegex.
  rewrite match_lit.
  apply match_group; [exact Hc | exact Hd | reflexivity|].
  erewrite match_lit_eq by reflexivity.
  apply match_group; [apply Hi | now apply plainValue_notQuote | reflexivity|].
  erewrite match_lit_eq by reflexivity.
  apply match_group; [apply Hr | now apply plainValue_notQuote | reflexivity|].
  erewrite match_lit_eq by reflexivity.
  apply match_group; [apply Hb | now apply plainValue_notQuote | reflexivity|].
  erewrite match_lit_eq by reflexivity.
  rewrite match_one by reflexivity.
  rewrite match_lit. reflexivity.
Qed.

Lemma exec_skip p c s :
  match_here p (String c s) = None -> exec p (String c s) = exec p s.
Proof. intros H. simpl. now rewrite H. Qed.

Lemma exec_at p s r : match_here p s = Some r -> exec p s = Some r.
Proof. intros H. destruct s; simpl; now rewrite H. Qed.

Lemma exec_summaryTag count invoked rate branch rest :
  count <> EmptyString ->
  (forall c, In c (list_ascii_of_string count) -> isDigit c = true) ->
  plainValue invoked -> plainValue rate -> plainValue branch ->
  exec summaryRegex (summaryTag count invoked rate branch ++ rest)
  = Some ([count; invoked; rate; branch], ">" ++ rest).
Proof.
  intros Hc Hd Hi Hr Hb. rewrite summaryTag_shape.
  pose proof (summary_attributes_match count invoked rate branch (">" ++ rest)
                Hc Hd Hi Hr Hb) as Hm.
  match type of Hm with match_here _ ?s = _ => remember s as body eqn:E end.
  clear E. cbn [append].
  repeat (rewrite exec_skip by reflexivity).
  now apply exec_at.
Qed.

Lemma digit_not_n c : isDigit c = true -> Ascii.eqb c "n" = false.
Proof.
  intros H. destruct (Ascii.eqb_spec c "n") as [->|]; [discriminate | reflexivity].
Qed.

Lemma digits_noNameStart s :
  (forall c, In c (list_ascii_of_string s) -> isDigit c = true) ->
  noNameStart s = true.
Proof.
  intros H. apply free_of_n_noNameStart, free_of_all.
  intros d Hd. now rewrite (digit_not_n d (H d Hd)).
Qed.

Lemma noNameStart_attr key value :
  noNameStart (key ++ "=" ++ q) = true -> noNameStart value = true ->
  noNameStart (attr key value) = true.
Proof.
  intros Hk Hv. unfold attr.
  replace (key ++ "=" ++ q ++ value ++ q) with ((key ++ "=" ++ q) ++ value ++ q)
    by (now rewrite !append_assoc).
  auto using noNameStart_app.
Qed.

Lemma noNameStart_summaryTag count invoked rate branch :
  noNameStart count = true -> noNameStart invoked = true ->
  noNameStart rate = true -> noNameStart branch = true ->
  noNameStart (summaryTag count invoked rate branch) = true.
Proof.
  intros Hc Hi Hr Hb. unfold summaryTag.
  apply (noNameStart_app "<scoverage "); [reflexivity|].
  apply noNameStart_app; [now apply noNameStart_attr|].
  apply (noNameStart_app " "); [reflexivity|].
  apply noNameStart_app; [now apply noNameStart_attr|].
  apply (noNameStart_app " "); [reflexivity|].
  apply noNameStart_app; [now apply noNameStart_attr|].
  apply (noNameStart_app " "); [reflexivity|].
  apply noNameStart_app; [now apply noNameStart_attr|].
  reflexivity.
Qed.

(** X13: a document made of a summary element and per-unit elements
    whose attribute values are plain is read back as written: the
    summary gives the rate and the total, and every unit gives one
    record, in document order. *)
Theorem parseReport_reads_back count invoked rate branch units changedFiles :
  count <> EmptyString ->
  (forall c, In c (list_ascii_of_string count) -> isDigit c = true) ->
  Forall (fun v => plainValue v /\ free_of "n" v = true) [invoked; rate; branch] ->
  Forall (fun '(name, filename, count, invoked) =>
            plainValue name /\ plainValue filename /\
            plainValue count /\ plainValue invoked) units ->
  exists report,
    parseReport (summaryTag count invoked rate branch ++ classTags units) changedFiles
    = Return report /\
    summary (all report) = ReportSummary.mk (parseFloat rate) (parseInt count) /\
    classes (all report) = map recordOf units.
Proof.
  intros Hc Hd Hv Hu.
  inversion Hv as [|? ? [Hi Hi'] Hv1]; subst.
  inversion Hv1 as [|? ? [Hr Hr'] Hv2]; subst.
  inversion Hv2 as [|? ? [Hb Hb'] _]; subst.
  unfold parseReport.
  rewrite (exec_summaryTag count invoked rate branch _ Hc Hd Hi Hr Hb).
  eexists. split; [reflexivity|]. cbn [all summary classes nth]. split; [reflexivity|].
  unfold matchAll. rewrite skip_noNameStart
    by (apply noNameStart_summaryTag;
        auto using digits_noNameStart, free_of_n_noNameStart).
  rewrite (matchAll_classTags units Hu), map_map.
  apply map_ext. intros [[[n f] c] i]. reflexivity.
Qed.

(** ** The further properties at concrete inputs *)

Lemma changed_files_only_select_witness :
  exists report report',
    parseReport scenarioDoc ["README.md"] = Return report /\
    parseReport scenarioDoc ["README.md"; "src/a/B.scala"] = Return report' /\
    all report' = all report /\
    incl (classes (changed report)) (classes (changed report')).
Proof.
  eassert (H : parseReport scenarioDoc ["README.md"] = Return _)
    by (vm_compute; reflexivity).
  destruct (changed_files_only_select scenarioDoc ["README.md"]
              ["README.md"; "src/a/B.scala"] _ H) as (report' & H' & Ha & Hi).
  eexists. exists report'. split; [exact H|]. split; [exact H'|]. split; [exact Ha|].
  apply Hi. intros file [<-|[]]. simpl. auto.
Defined.

Lemma nothing_changed_nothing_rendered_witness :
  exists report,
    parseReport scenarioDoc ["README.md"] = Return report /\
    classes (changed report) = [] /\
    ReportSummary.statementRate (summary (changed report)) = NaN.
Proof.
  eassert (H : parseReport scenarioDoc ["README.md"] = Return _)
    by (vm_compute; reflexivity).
  eexists. split; [exact H|].
  destruct (nothing_changed_nothing_rendered scenarioDoc ["README.md"] _ H)
    as (Hc & _ & Hr & _).
  - intros file classResult [<-|[]] [<-|[]]. reflexivity.
  - split; [exact Hc | exact Hr].
Defined.

Lemma parsed_fields_plain_witness :
  exists report classResult,
    parseReport scenarioDoc [] = Return report /\
    In classResult (classes (all report)) /\
    ReportClass.name classResult <> EmptyString /\
    free_of dquote (ReportClass.name classResult) = true /\
    ReportClass.filename classResult <> EmptyString /\
    free_of dquote (ReportClass.filename classResult) = true.
Proof.
  eassert (H : parseReport scenarioDoc [] = Return _) by (vm_compute; reflexivity).
  eexists. eexists. split; [exact H|].
  assert (Hin : In (ReportClass.mk "a.B" "a/B.scala" (parseInt "10") (parseInt "5"))
                   (classes (all (Build_Report
                      {| summary := ReportSummary.mk (parseFloat "80.0") (parseInt "100");
                         classes := [ReportClass.mk "a.B" "a/B.scala" (parseInt "10") (parseInt "5")] |}
                      {| summary := ReportSummary.mk NaN zero; classes := [] |}))))
    by (left; reflexivity).
  split; [exact Hin|].
  exact (parsed_fields_plain scenarioDoc [] _ _ H Hin).
Defined.

Lemma NaN_count_hides_changed_witness :
  exists report,
    parseReport malformedDoc ["src/a/B.scala"] = Return report /\
    classes (changed report) <> [] /\
    isNaN (ReportSummary.statementRate (summary (changed report))) = true.
Proof.
  eassert (H : parseReport malformedDoc ["src/a/B.scala"] = Return _)
    by (vm_compute; reflexivity).
  eexists. split; [exact H|]. split; [discriminate|].
  refine (proj1 (NaN_count_hides_changed malformedDoc ["src/a/B.scala"] _
                   (ReportClass.mk "a.B" "a/B.scala" NaN NaN) H _ _)).
  - left. reflexivity.
  - left. reflexivity.
Defined.

Lemma render_output_closed_witness :
  startsWith (renderCommentMarkdown onlyAllFinite) ("<details>" ++ nl) = true /\
  endsWith (renderCommentMarkdown onlyAllFinite) ("</details>" ++ nl) = true.
Proof.
  apply (proj2 (render_output_closed onlyAllFinite)).
  vm_compute. discriminate.
Defined.

Lemma zero_statement_row_witness :
  renderClass EmptyString emptyUnit
  = "| `Empty.a` | :red_circle: NaN% (0/0) |" ++ nl /\
  renderClass EmptyString negativeZeroUnit
  = "| `B.a` | :red_circle: -Infinity% (5/0) |" ++ nl /\
  renderClass EmptyString (ReportClass.mk "a.B" "a/B.scala" zero (parseInt "5"))
  = "| `B.a` | :green_circle: Infinity% (5/0) |" ++ nl.
Proof.
  split; [|split].
  - exact (proj1 (zero_statement_row EmptyString emptyUnit false eq_refl) false eq_refl).
  - exact (proj2 (zero_statement_row EmptyString negativeZeroUnit true eq_refl)
             false _ _ eq_refl).
  - exact (proj2 (zero_statement_row EmptyString
                    (ReportClass.mk "a.B" "a/B.scala" zero (parseInt "5")) false eq_refl)
             false _ _ eq_refl).
Defined.

Lemma abbreviate_keeps_innermost_witness : abbreviate "Main" = "Main".
Proof.
  apply (proj2 (proj2 (abbreviate_keeps_innermost "Main"))). reflexivity.
Defined.

Lemma published_comment_is_updated_witness :
  exists comment,
    In comment (concat afterFirstRun) /\ isTagged comment = true /\
    createOrUpdateIssueComment afterFirstRun 7 "new report"
    = (map (ListComments 7) (seq 1 (pagesRead afterFirstRun))
       ++ [UpdateComment (id comment) ("new report" ++ nl ++ nl ++ commentTag)])%list.
Proof.
  destruct (published_comment_is_updated afterFirstRun 7 "old report" "new report" 21)
    as (comment & Hin & Ht & Hc & _).
  - right. left. reflexivity.
  - exists comment. auto.
Defined.

Lemma coverageRateIcon_any_thresholds_witness :
  iconRank (coverageRateIcon (parseFloat "0.5") (n0_8, n0_6))
  <= iconRank (coverageRateIcon (parseFloat "0.9") (n0_8, n0_6)).
Proof.
  apply (proj2 (proj2 (coverageRateIcon_any_thresholds
                         (parseFloat "0.5") (parseFloat "0.9") (n0_8, n0_6)))).
  reflexivity.
Defined.

Lemma pullRequestNumber_fallback_witness :
  pullRequestNumber "0" None (Some (of_Z 7)) = Some (of_Z 7) /\
  pullRequestNumber "n/a" (Some "12") None = None.
Proof.
  split.
  - apply (proj1 (proj2 (proj2 (pullRequestNumber_fallback "0" None (Some (of_Z 7)))))).
    reflexivity.
  - apply (proj1 (proj2 (pullRequestNumber_fallback "n/a" (Some "12") None))).
    reflexivity.
Defined.

Lemma repositoryFromEnv_parts_witness :
  repositoryFromEnv (Some "airfocusio/action") = ("airfocusio", "action") /\
  repositoryFromEnv (Some "airfocusio/action/extra") = ("airfocusio", "action").
Proof.
  destruct (repositoryFromEnv_parts "airfocusio" "action" "extra" eq_refl eq_refl)
    as (H1 & H2 & _).
  split; [exact H1 | exact H2].
Defined.

Lemma parseReport_reads_back_witness :
  exists report,
    parseReport (summaryTag "100" "80" "80.0" "50.00"
                 ++ classTags [("a.B", "a/B.scala", "10", "5");
                               ("a.C", "a/C.scala", "4", "4")]) []
    = Return report /\
    summary (all report) = ReportSummary.mk (parseFloat "80.0") (parseInt "100") /\
    classes (all report)
    = map recordOf [("a.B", "a/B.scala", "10", "5"); ("a.C", "a/C.scala", "4", "4")].
Proof.
  apply parseReport_reads_back.
  - discriminate.
  - intros c H. simpl in H.
    repeat (destruct H as [<-|H]; [reflexivity|]). destruct H.
  - repeat constructor; try discriminate; reflexivity.
  - repeat constructor; try discriminate; reflexivity.
Defined.
